(** * agent.py: event classification, tool audit and review reports

    A shallow embedding of [main] of [agent.py]: the file read, the single
    call of the agent runtime, the pass over [result.new_items] that fills
    the four note lists, the required-tools check and the writing of the
    Markdown reports under [reviews/].

    Python text is modelled as [string] holding the bytes of its UTF-8
    encoding, so a character outside ASCII takes several [ascii];
    [os.sep] is ["/"] (POSIX).  The fields of the runtime's records,
    when present, carry text as the runtime documents them; a field may be
    absent, and then the attribute or key access of the source raises. *)

From Stdlib Require Import Ascii String.
From stdpp Require Import base option list strings gmap.

(** ** Python string operations used by [main] *)

Module PyStr.

(** [sep.join(parts)] *)
Definition join (sep : string) (parts : list string) : string :=
  String.concat sep parts.

(** [s.split(c)] for a one-character separator: every occurrence cuts,
    empty fields are kept, and the empty string gives one empty field. *)
Fixpoint split (c : ascii) (s : string) : list string :=
  match s with
  | EmptyString => [EmptyString]
  | String a s' =>
      if Ascii.eqb a c then EmptyString :: split c s'
      else match split c s' with
           | [] => [String a EmptyString]
           | w :: ws => String a w :: ws
           end
  end.

(** [s.replace(a, b)] for one-character [a] and [b] *)
Fixpoint replace (a b : ascii) (s : string) : string :=
  match s with
  | EmptyString => EmptyString
  | String x s' => String (if Ascii.eqb x a then b else x) (replace a b s')
  end.

(** [l[-n:]] for [n > 0]: the last [n] elements, all of them when the
    list is shorter. *)
Definition last_n {A} (n : nat) (l : list A) : list A :=
  drop (length l - n) l.

(** [s[:n]] for an index [n] that [rfind] below has found: indices count
    bytes there and here, which cuts where Python's character indices
    cut. *)
Definition take (n : nat) (s : string) : string := String.substring 0 n s.

(** A byte that continues a character of UTF-8 text ([10xxxxxx]). *)
Definition is_continuation (a : ascii) : bool :=
  let n := nat_of_ascii a in (128 <=? n)%nat && (n <? 192)%nat.

(** [len(s)]: the number of characters *)
Fixpoint chars (s : string) : nat :=
  match s with
  | EmptyString => O
  | String a s' => if is_continuation a then chars s' else S (chars s')
  end.

(** [s[:n]] for a count [n] of characters: the first [n] characters, each
    with the bytes that continue it. *)
Fixpoint take_chars (n : nat) (s : string) : string :=
  match s with
  | EmptyString => EmptyString
  | String a s' =>
      if is_continuation a then String a (take_chars n s')
      else match n with
           | O => EmptyString
           | S n' => String a (take_chars n' s')
           end
  end.

(** [s[n:]] *)
Fixpoint drop (n : nat) (s : string) : string :=
  match n, s with
  | O, _ => s
  | S n', EmptyString => EmptyString
  | S n', String _ s' => drop n' s'
  end.

(** [c in s] for a character *)
Fixpoint mem (c : ascii) (s : string) : bool :=
  match s with
  | EmptyString => false
  | String a s' => Ascii.eqb a c || mem c s'
  end.

(** [s.rfind(c)] for a character: the index of the last occurrence, or
    [-1]. *)
Fixpoint rfind_from (c : ascii) (s : string) (i : Z) (found : Z) : Z :=
  match s with
  | EmptyString => found
  | String a s' => rfind_from c s' (i + 1) (if Ascii.eqb a c then i else found)
  end.

Definition rfind (c : ascii) (s : string) : Z := rfind_from c s 0 (-1).

(** [s.lower()] on the ASCII letters; the bytes of other characters are
    kept as they are. *)
Definition lower_ascii (a : ascii) : ascii :=
  let n := nat_of_ascii a in
  if (65 <=? n)%nat && (n <=? 90)%nat then ascii_of_nat (n + 32) else a.

Fixpoint lower (s : string) : string :=
  match s with
  | EmptyString => EmptyString
  | String a s' => String (lower_ascii a) (lower s')
  end.

(** [sub in s]: [sub] occurs in [s] as a contiguous run *)
Fixpoint contains (sub s : string) : bool :=
  String.prefix sub s
  || match s with
     | EmptyString => false
     | String _ s' => contains sub s'
     end.

(** [s.startswith(p)], [s.endswith(c)] for a character *)
Definition startswith (p s : string) : bool := String.prefix p s.

Fixpoint endswith_char (c : ascii) (s : string) : bool :=
  match s with
  | EmptyString => false
  | String a EmptyString => Ascii.eqb a c
  | String _ s' => endswith_char c s'
  end.

End PyStr.

(** ** [os.path] (posixpath) *)

Module OsPath.

Definition sep : ascii := "/"%char.
Definition extsep : ascii := "."%char.

(** The loop of [genericpath._splitext] that skips the leading dots of
    the file name: from [filenameIndex], looking at [fuel] characters
    ([dotIndex - filenameIndex] of them), is there one that is not a
    dot? *)
Fixpoint has_non_dot (s : string) (fuel : nat) : bool :=
  match fuel, s with
  | O, _ => false
  | S _, EmptyString => true
  | S f, String a s' => negb (Ascii.eqb a extsep) || has_non_dot s' f
  end.

(** [os.path.splitext(p)] *)
Definition splitext (p : string) : string * string :=
  let sepIndex := PyStr.rfind sep p in
  let dotIndex := PyStr.rfind extsep p in
  if (dotIndex >? sepIndex)%Z
     && has_non_dot (PyStr.drop (Z.to_nat (sepIndex + 1)) p)
                    (Z.to_nat (dotIndex - (sepIndex + 1)))
  then (PyStr.take (Z.to_nat dotIndex) p, PyStr.drop (Z.to_nat dotIndex) p)
  else (p, EmptyString).

(** [os.path.join(a, b)] *)
Definition join (a b : string) : string :=
  if PyStr.startswith (String sep EmptyString) b || String.eqb a EmptyString then b
  else if PyStr.endswith_char sep a then a +:+ b
  else a +:+ String sep b.

End OsPath.

(** ** The review directory (lines 181-185) *)

Definition path_parts (file_path : string) : list string :=
  PyStr.split OsPath.sep file_path.

(** [base] after line 184 *)
Definition base (file_path : string) : string :=
  let base := PyStr.replace "."%char "_"%char
                (PyStr.join "_" (PyStr.last_n 3 (path_parts file_path))) in
  fst (OsPath.splitext base).

Definition review_dir (file_path : string) : string :=
  OsPath.join "reviews" (base file_path).

(** ** Exceptions, effects and the monad of [main] *)

(** The exceptions the embedded code can raise.  All are subclasses of
    [Exception]. *)
Inductive exn :=
| AttributeError (attr : string)   (* [x.attr] on an object without it *)
| KeyError (key : string)          (* [d[key]] on a dict without it *)
| TypeError                        (* [x[key]] on an object that is not subscriptable *)
| OSError (msg : string)           (* raised by [os.makedirs], [open], [f.write] *)
| RuntimeFailure (msg : string).   (* raised inside [Runner.run] *)

(** What [main] does to the outside, in program order. *)
Inductive effect :=
| ReadFile (path : string)                      (* [open(path,'r')] and [f.read()] *)
| RunAgent (input : string)                     (* [Runner.run(manager_agent, input, session)] *)
| Print (s : string)                            (* [print(s)] *)
| PrintTools (used : gset string)               (* [print(used_tools)] *)
| PrintExpected (required used : gset string)   (* the [Expected: ..., got: ...] line *)
| Makedirs (dir : string)                       (* [os.makedirs(dir, exist_ok=True)] *)
| Open (path : string)                          (* [open(path, "w")] *)
| Write (path data : string)                    (* [f.write(data)] *)
| Close (path : string).                        (* leaving the [with] block *)

(** A computation performs effects and then either returns or raises. *)
Definition M (A : Type) : Type := list effect * (exn + A).

Global Instance M_ret : MRet M := fun A a => ([], inr a).

Global Instance M_bind : MBind M := fun A B f m =>
  match m with
  | (t, inl e) => (t, inl e)
  | (t, inr a) => let '(t', r) := f a in (t ++ t', r)
  end.

Definition raise {A} (e : exn) : M A := ([], inl e).
Definition lift {A} (r : exn + A) : M A := ([], r).
Definition tell (e : effect) : M unit := ([e], inr tt).
Definition print (s : string) : M unit := tell (Print s).

Definition trace_of {A} (m : M A) : list effect := fst m.
Definition outcome {A} (m : M A) : exn + A := snd m.

(** ** Event records of the runtime (lines 120-165 read them) *)

Definition nl : string := String (ascii_of_nat 10) EmptyString.

(** One element of a message's [content] list; [c.text] may be absent
    (a refusal part has none). *)
Record Chunk := { text : option string }.

(** The attributes of [raw_item] the source reads. *)
Record RawAttrs := {
  name : option string;
  call_id : option string;
  arguments : option string;
  content : option (list Chunk)
}.

(** [raw_item] is an object read by attribute (tool calls, messages,
    reasoning) or a dict read by key (tool outputs).  Both carry the text
    [str(raw_item)] gives. *)
Inductive RawItem :=
| RawObject (str : string) (attrs : RawAttrs)
| RawDict (str : string) (entries : gmap string string).

Record Item := {
  type : option string;
  raw_item : option RawItem;
  output : option string
}.

Definition py_str (r : RawItem) : string :=
  match r with RawObject s _ | RawDict s _ => s end.

(** [r.attr]: a dict has none of the attributes read here. *)
Definition getattr {A} (attr : string) (proj : RawAttrs -> option A)
    (r : RawItem) : exn + A :=
  match r with
  | RawObject _ o =>
      match proj o with Some v => inr v | None => inl (AttributeError attr) end
  | RawDict _ _ => inl (AttributeError attr)
  end.

(** [r[key]] *)
Definition getitem (key : string) (r : RawItem) : exn + string :=
  match r with
  | RawObject _ _ => inl TypeError
  | RawDict _ d =>
      match d !! key with Some v => inr v | None => inl (KeyError key) end
  end.

(** [item.raw_item], [item.output] *)
Definition get_raw_item (item : Item) : exn + RawItem :=
  match raw_item item with Some r => inr r | None => inl (AttributeError "raw_item") end.

Definition get_output (item : Item) : exn + string :=
  match output item with Some s => inr s | None => inl (AttributeError "output") end.

(** [getattr(item, "type", None) == s] *)
Definition type_is (item : Item) (s : string) : bool :=
  match type item with Some t => String.eqb t s | None => false end.

(** ** The classification pass (lines 118-165) *)

Record State := {
  junior_notes : list string;
  senior_notes : list string;
  manager_notes : list string;
  planning_notes : list string;
  used_tools : gset string;
  id_to_tool : gmap string string
}.

Definition init : State :=
  {| junior_notes := []; senior_notes := []; manager_notes := [];
     planning_notes := []; used_tools := ∅; id_to_tool := ∅ |}.

Definition record_call (tool_name cid : string) (st : State) : State :=
  {| junior_notes := junior_notes st; senior_notes := senior_notes st;
     manager_notes := manager_notes st; planning_notes := planning_notes st;
     used_tools := {[tool_name]} ∪ used_tools st;
     id_to_tool := <[cid := tool_name]> (id_to_tool st) |}.

Definition add_junior (note : string) (st : State) : State :=
  {| junior_notes := junior_notes st ++ [note]; senior_notes := senior_notes st;
     manager_notes := manager_notes st; planning_notes := planning_notes st;
     used_tools := used_tools st; id_to_tool := id_to_tool st |}.

Definition add_senior (note : string) (st : State) : State :=
  {| junior_notes := junior_notes st; senior_notes := senior_notes st ++ [note];
     manager_notes := manager_notes st; planning_notes := planning_notes st;
     used_tools := used_tools st; id_to_tool := id_to_tool st |}.

Definition add_manager (note : string) (st : State) : State :=
  {| junior_notes := junior_notes st; senior_notes := senior_notes st;
     manager_notes := manager_notes st ++ [note]; planning_notes := planning_notes st;
     used_tools := used_tools st; id_to_tool := id_to_tool st |}.

Definition add_planning (note : string) (st : State) : State :=
  {| junior_notes := junior_notes st; senior_notes := senior_notes st;
     manager_notes := manager_notes st; planning_notes := planning_notes st ++ [note];
     used_tools := used_tools st; id_to_tool := id_to_tool st |}.

(** [[c.text for c in chunks]] *)
Fixpoint chunk_texts (chunks : list Chunk) : exn + list string :=
  match chunks with
  | [] => inr []
  | c :: cs =>
      match text c with
      | None => inl (AttributeError "text")
      | Some s =>
          match chunk_texts cs with
          | inl e => inl e
          | inr ss => inr (s :: ss)
          end
      end
  end.

(** The body of the [try] of lines 152-154, up to the append: the text of
    the message, or the exception the [except] clause catches. *)
Definition message_text (item : Item) : exn + string :=
  match get_raw_item item with
  | inl e => inl e
  | inr raw =>
      match getattr "content" content raw with
      | inl e => inl e
      | inr chunks =>
          match chunk_texts chunks with
          | inl e => inl e
          | inr ss => inr (PyStr.join nl ss)
          end
      end
  end.

(** [id_to_tool.get(call_id, "").lower()] *)
Definition resolve (st : State) (cid : string) : string :=
  PyStr.lower (default "" (id_to_tool st !! cid)).

(** Lines 143-146. *)
Definition file_result (tool_name out : string) (st : State) : State :=
  if PyStr.contains "junior" tool_name then add_junior out st
  else if PyStr.contains "senior" tool_name then add_senior out st
  else st.

(** One iteration of the loop of line 120. *)
Definition classify_item (st : State) (item : Item) : M State :=
  if type_is item "tool_call_item" then
    raw ← lift (get_raw_item item);
    tool_name ← lift (getattr "name" name raw);
    cid ← lift (getattr "call_id" call_id raw);
    let st' := record_call tool_name cid st in
    print "[TOOL CALL]" ;;
    print ("  tool: " +:+ tool_name) ;;
    print ("  call_id: " +:+ cid) ;;
    args ← lift (getattr "arguments" arguments raw);
    print ("  args: " +:+ args) ;;
    print "" ;;
    mret st'
  else if type_is item "tool_call_output_item" then
    print "[TOOL RESULT]" ;;
    raw ← lift (get_raw_item item);
    cid ← lift (getitem "call_id" raw);
    print ("  call_id: " +:+ cid) ;;
    out ← lift (get_output item);
    print ("  tool output (truncated):" +:+ nl +:+ PyStr.take_chars 500 out) ;;
    print "" ;;
    mret (file_result (resolve st cid) out st)
  else if type_is item "message_output_item" then
    print "[FINAL MESSAGE FRAGMENT]" ;;
    '(shown, st') ←
      match message_text item with
      | inr t => mret (t, add_manager t st)
      | inl _ => raw ← lift (get_raw_item item); mret (py_str raw, st)
      end;
    print (PyStr.take_chars 500 shown) ;;
    print "" ;;
    mret st'
  else if type_is item "reasoning_item" then
    raw ← lift (get_raw_item item);
    mret (add_planning (py_str raw) st)
  else mret st.

(** The loop. *)
Fixpoint classify (items : list Item) (st : State) : M State :=
  match items with
  | [] => mret st
  | item :: rest => st' ← classify_item st item; classify rest st'
  end.

(** ** The required-tools check (lines 171-175) *)

Definition required : gset string :=
  {[ "junior_developer_agent"; "senior_developer_agent" ]}.

Definition audit (used : gset string) : M unit :=
  if decide (required ⊆ used) then mret tt
  else
    print "WARNING: Manager did NOT call all required tools!" ;;
    tell (PrintExpected required used).

(** ** The outside world of one run *)

Record RunResult := {
  new_items : list Item;
  final_output : string;
  result_str : string          (* [str(result)] *)
}.

(** How reading the input file fails: [FileNotFoundError], or another
    [Exception] with its message. *)
Inductive read_error :=
| FileNotFound
| ReadFailure (msg : string).

Record World := {
  read_file : string -> read_error + string;
  runner_run : string -> exn + RunResult;
  makedirs_fails : string -> option exn;
  open_fails : string -> option exn;
  (** the [k]-th write on the handle of a path, counting from 0 *)
  write_fails : string -> nat -> option exn
}.

(** ** The report writer (lines 186-228) *)

Fixpoint write_all (w : World) (fn : string) (k : nat) (data : list string)
    : M unit :=
  match data with
  | [] => mret tt
  | d :: rest =>
      tell (Write fn d) ;;
      match write_fails w fn k with
      | Some e => raise e
      | None => write_all w fn (S k) rest
      end
  end.

(** The strings one [with] block writes, in order: the heading, then each
    note and the two newlines after it. *)
Definition file_data (heading : string) (notes : list string) : list string :=
  (heading +:+ nl +:+ nl) :: flat_map (fun note => [note; nl +:+ nl]) notes.

(** [with open(fn, "w") as f: ...]: the file is closed on the way out,
    also when a write raises. *)
Definition with_open (w : World) (fn heading : string) (notes : list string)
    : M unit :=
  tell (Open fn) ;;
  match open_fails w fn with
  | Some e => raise e
  | None =>
      match write_all w fn 0 (file_data heading notes) with
      | (t, r) => (t ++ [Close fn], r)
      end
  end.

(** One [if notes: ...] block. *)
Definition write_bucket (w : World) (fn heading saved : string)
    (notes : list string) : M unit :=
  match notes with
  | [] => mret tt
  | _ :: _ => with_open w fn heading notes ;; print saved
  end.

Definition junior_fn (dir : string) : string := OsPath.join dir "junior_review.md".
Definition senior_fn (dir : string) : string := OsPath.join dir "senior_review.md".
Definition manager_fn (dir : string) : string := OsPath.join dir "manager_review.md".
Definition planner_fn (dir : string) : string := OsPath.join dir "planner_review.md".

Definition check_mark : string := "✓".

Definition write_reports (w : World) (file_path : string) (st : State) : M unit :=
  let dir := review_dir file_path in
  tell (Makedirs dir) ;;
  match makedirs_fails w dir with
  | Some e => raise e
  | None =>
      write_bucket w (junior_fn dir) "# Junior Developer Review"
        (nl +:+ check_mark +:+ " Junior review saved to: junior_review.md")
        (junior_notes st) ;;
      write_bucket w (senior_fn dir) "# Senior Developer Review"
        (check_mark +:+ " Senior review saved to: senior_review.md")
        (senior_notes st) ;;
      write_bucket w (manager_fn dir) "# Manager Notes"
        (check_mark +:+ " Manger Notes saved to: manager_review.md")
        (manager_notes st) ;;
      write_bucket w (planner_fn dir) "# Planner Notes"
        (check_mark +:+ " Planner Notes saved to: planning_steps.md")
        (planning_notes st)
  end.

(** ** [main] (lines 71-228) *)

Definition fence : string := "```".

(** Line 84. *)
Definition full_input (user_input file_content : string) : string :=
  user_input +:+ nl +:+ nl +:+ "File to review:" +:+ nl +:+ fence +:+ nl
  +:+ file_content +:+ nl +:+ fence.

Definition banner (title : string) : string :=
  nl +:+ nl +:+ title +:+ nl +:+ nl.

(** Everything after the runtime has returned (lines 96-228). *)
Definition report (w : World) (file_path : string) (result : RunResult) : M unit :=
  print (banner "=====Manager Agent initiated=====") ;;
  print (result_str result) ;;
  print (banner "======== Debugging ========") ;;
  st ← classify (new_items result) init;
  print (banner "======== TOOLS USED: ========") ;;
  tell (PrintTools (used_tools st)) ;;
  audit (used_tools st) ;;
  print (banner "======== FINAL OUTPUT ========") ;;
  print (final_output result) ;;
  write_reports w file_path st.

Definition main (w : World) (user_input file_path : string) : M unit :=
  tell (ReadFile file_path) ;;
  match read_file w file_path with
  | inl FileNotFound => print ("Error: File not found at " +:+ file_path)
  | inl (ReadFailure msg) => print ("Error reading file: " +:+ msg)
  | inr file_content =>
      let input := full_input user_input file_content in
      tell (RunAgent input) ;;
      result ← lift (runner_run w input);
      report w file_path result
  end.

(** ** The files a trace leaves behind *)

(** Replays the file effects of a trace on a file system (path to
    content): opening for writing truncates, a write appends. *)
Fixpoint replay (t : list effect) (fs : gmap string string) : gmap string string :=
  match t with
  | [] => fs
  | Open fn :: t' => replay t' (<[fn := ""]> fs)
  | Write fn d :: t' => replay t' (<[fn := default "" (fs !! fn) +:+ d]> fs)
  | _ :: t' => replay t' fs
  end.

(** ** Well-shaped events, as the runtime produces them *)

Definition tool_call (tool_name cid args : string) : Item :=
  {| type := Some "tool_call_item";
     raw_item := Some (RawObject "ResponseFunctionToolCall"
                         {| name := Some tool_name; call_id := Some cid;
                            arguments := Some args; content := None |});
     output := None |}.

Definition tool_result (cid out : string) : Item :=
  {| type := Some "tool_call_output_item";
     raw_item := Some (RawDict "FunctionCallOutput" {[ "call_id" := cid ]});
     output := Some out |}.

Definition message (parts : list string) : Item :=
  {| type := Some "message_output_item";
     raw_item := Some (RawObject "ResponseOutputMessage"
                         {| name := None; call_id := None; arguments := None;
                            content := Some (map (fun s => {| text := Some s |}) parts) |});
     output := None |}.

Definition reasoning (shown : string) : Item :=
  {| type := Some "reasoning_item";
     raw_item := Some (RawObject shown
                         {| name := None; call_id := None; arguments := None;
                            content := None |});
     output := None |}.

(** ** Vocabulary for the statements below *)

(** [item] is a tool-invocation event of tool [tool_name] with call id
    [cid]. *)
Definition is_tool_call (item : Item) (tool_name cid : string) : Prop :=
  type_is item "tool_call_item" = true /\
  exists s o, raw_item item = Some (RawObject s o) /\
              name o = Some tool_name /\ call_id o = Some cid.

(** [item] is a tool-result event for call id [cid] with output [out]. *)
Definition is_tool_result (item : Item) (cid out : string) : Prop :=
  type_is item "tool_call_output_item" = true /\
  output item = Some out /\
  exists s d, raw_item item = Some (RawDict s d) /\ d !! "call_id" = Some cid.

(** [item] is a tool-invocation event that carries call id [cid]. *)
Definition invokes (cid : string) (item : Item) : bool :=
  type_is item "tool_call_item"
  && match raw_item item with
     | Some (RawObject _ o) => bool_decide (call_id o = Some cid)
     | _ => false
     end.

(** Every field the branch of [item]'s kind reads without a guard is
    there.  A message needs only its [raw_item]: its [content] and the
    [text] of its parts are read inside the [try]. *)
Definition well_formed (item : Item) : bool :=
  if type_is item "tool_call_item" then
    match raw_item item with
    | Some (RawObject _ o) =>
        bool_decide (is_Some (name o)) && bool_decide (is_Some (call_id o))
        && bool_decide (is_Some (arguments o))
    | _ => false
    end
  else if type_is item "tool_call_output_item" then
    match raw_item item with
    | Some (RawDict _ d) =>
        bool_decide (is_Some (d !! "call_id")) && bool_decide (is_Some (output item))
    | _ => false
    end
  else if type_is item "message_output_item" || type_is item "reasoning_item" then
    bool_decide (is_Some (raw_item item))
  else true.

(** The four note lists, in the order the reports are written. *)
Definition buckets (st : State) : list (list string) :=
  [junior_notes st; senior_notes st; manager_notes st; planning_notes st].

(** The note lists at the end of the pass over [items], or the exception
    that ended it. *)
Definition buckets_after (items : list Item) : exn + list (list string) :=
  match outcome (classify items init) with
  | inl e => inl e
  | inr st => inr (buckets st)
  end.

(** One report: its path, heading, console notice and notes. *)
Record Job := {
  job_fn : string;
  job_heading : string;
  job_saved : string;
  job_notes : list string
}.

Definition run_job (w : World) (j : Job) : M unit :=
  write_bucket w (job_fn j) (job_heading j) (job_saved j) (job_notes j).

(** The four [if notes: ...] blocks of lines 194-228 as data. *)
Definition jobs (dir : string) (st : State) : list Job :=
  [ {| job_fn := junior_fn dir; job_heading := "# Junior Developer Review";
       job_saved := nl +:+ check_mark +:+ " Junior review saved to: junior_review.md";
       job_notes := junior_notes st |};
    {| job_fn := senior_fn dir; job_heading := "# Senior Developer Review";
       job_saved := check_mark +:+ " Senior review saved to: senior_review.md";
       job_notes := senior_notes st |};
    {| job_fn := manager_fn dir; job_heading := "# Manager Notes";
       job_saved := check_mark +:+ " Manger Notes saved to: manager_review.md";
       job_notes := manager_notes st |};
    {| job_fn := planner_fn dir; job_heading := "# Planner Notes";
       job_saved := check_mark +:+ " Planner Notes saved to: planning_steps.md";
       job_notes := planning_notes st |} ].

Fixpoint run_jobs (w : World) (js : list Job) : M unit :=
  match js with
  | [] => mret tt
  | j :: rest => run_job w j ;; run_jobs w rest
  end.

(** The text of a report file: the heading and a blank line, then every
    note followed by a blank line. *)
Definition file_text (heading : string) (notes : list string) : string :=
  heading +:+ nl +:+ nl
  +:+ String.concat "" (map (fun note => note +:+ nl +:+ nl) notes).

(** The derived name as the specification words it: the last three path
    components joined by underscores, with the final extension removed,
    read as the specification's own example [b_c_file_py] for
    [/a/b/c/file.py] fixes it: the extension stops being one, an
    underscore taking the place of its dot.  Nothing else of the joined
    components changes. *)
Definition spec_derived_name (file_path : string) : string :=
  let joined := PyStr.join "_" (PyStr.last_n 3 (path_parts file_path)) in
  let (root, ext) := OsPath.splitext joined in
  match ext with
  | EmptyString => root
  | String _ rest => root +:+ "_" +:+ rest
  end.

(** The first write that fails among the [n] writes numbered from [k] on
    the handle of [fn]. *)
Fixpoint first_write_failure (w : World) (fn : string) (k n : nat) : option exn :=
  match n with
  | O => None
  | S n' =>
      match write_fails w fn k with
      | Some e => Some e
      | None => first_write_failure w fn (S k) n'
      end
  end.

(** What the file system does to a report: nothing when there are no
    notes (the file is not touched); otherwise the failure of the open,
    or of the first failing write of the heading and the notes. *)
Definition job_failure (w : World) (j : Job) : option exn :=
  match job_notes j with
  | [] => None
  | _ :: _ =>
      match open_fails w (job_fn j) with
      | Some e => Some e
      | None =>
          first_write_failure w (job_fn j) 0
            (length (file_data (job_heading j) (job_notes j)))
      end
  end.

Global Instance exn_eq_dec : EqDecision exn.
Proof. solve_decision. Defined.

Global Instance effect_eq_dec : EqDecision effect.
Proof. solve_decision. Defined.

(** ** Concrete runs used as examples *)

(** A tool invocation whose [raw_item] has no [name]. *)
Definition nameless_call : Item :=
  {| type := Some "tool_call_item";
     raw_item := Some (RawObject "ResponseFunctionToolCall"
                         {| name := None; call_id := Some "c1";
                            arguments := Some "{}"; content := None |});
     output := None |}.

(** A message whose [raw_item] has no [content]. *)
Definition contentless_message : Item :=
  {| type := Some "message_output_item";
     raw_item := Some (RawObject "ResponseOutputMessage"
                         {| name := None; call_id := None; arguments := None;
                            content := None |});
     output := None |}.

(** The trace of a review in which both reviewers were called. *)
Definition review_items : list Item :=
  [ tool_call "junior_developer_agent" "c1" "{}";
    tool_result "c1" "J";
    tool_call "senior_developer_agent" "c2" "{}";
    tool_result "c2" "S";
    message ["Summary"] ].

Definition review_result : RunResult :=
  {| new_items := review_items; final_output := "FINAL ANSWER";
     result_str := "RunResult" |}.

(** A world in which the input file reads, the runtime returns
    [review_result] and every write succeeds. *)
Definition world_ok : World :=
  {| read_file := fun _ => inr "print(1)";
     runner_run := fun _ => inr review_result;
     makedirs_fails := fun _ => None;
     open_fails := fun _ => None;
     write_fails := fun _ _ => None |}.

(** The same world, except that the junior report cannot be opened. *)
Definition world_denied : World :=
  {| read_file := fun _ => inr "print(1)";
     runner_run := fun _ => inr review_result;
     makedirs_fails := fun _ => None;
     open_fails := fun fn =>
       if String.eqb fn "reviews/b_c_file_py/junior_review.md"
       then Some (OSError "Permission denied") else None;
     write_fails := fun _ _ => None |}.

(** The same world, except that the disk is full at the second write to
    the senior report. *)
Definition world_disk_full : World :=
  {| read_file := fun _ => inr "print(1)";
     runner_run := fun _ => inr review_result;
     makedirs_fails := fun _ => None;
     open_fails := fun _ => None;
     write_fails := fun fn k =>
       if String.eqb fn "reviews/b_c_file_py/senior_review.md" && (k =? 1)%nat
       then Some (OSError "No space left on device") else None |}.

(** A world in which the review directory cannot be made. *)
Definition world_no_directory : World :=
  {| read_file := fun _ => inr "print(1)";
     runner_run := fun _ => inr review_result;
     makedirs_fails := fun _ => Some (OSError "Permission denied");
     open_fails := fun _ => None;
     write_fails := fun _ _ => None |}.

(** A tool result whose [raw_item] has no [call_id]. *)
Definition keyless_result : Item :=
  {| type := Some "tool_call_output_item";
     raw_item := Some (RawDict "FunctionCallOutput" ∅);
     output := Some "R" |}.

(** A trace without a tool invocation: a message, then [keyless_result]. *)
Definition keyless_result_run : RunResult :=
  {| new_items := [message ["Summary"]; keyless_result];
     final_output := "FINAL ANSWER"; result_str := "RunResult" |}.

(** A trace without a tool invocation in which every event has its
    fields: a stray tool result, a message and a reasoning event. *)
Definition no_call_run : RunResult :=
  {| new_items := [tool_result "c9" "R"; message ["Summary"]; reasoning "plan"];
     final_output := "FINAL ANSWER"; result_str := "RunResult" |}.

(** A tool output of 604 characters: 499 times [a], a check mark (three
    bytes), then 104 times [b]. *)
Definition long_output : string :=
  String.concat "" (replicate 499 "a") +:+ check_mark
  +:+ String.concat "" (replicate 104 "b").

(** A world without the input file. *)
Definition world_missing : World :=
  {| read_file := fun _ => inl FileNotFound;
     runner_run := fun _ => inr review_result;
     makedirs_fails := fun _ => None;
     open_fails := fun _ => None;
     write_fails := fun _ _ => None |}.

(** ** The script around [main] (lines 63-69 and 231-242) *)

(** How the process ends. *)
Inductive termination :=
| Finished                       (* the script runs to its end *)
| RuntimeError (msg : string)    (* raised on line 67 *)
| SystemExit (code : Z)          (* [sys.exit(code)] on line 237 *)
| IndexError                     (* [sys.argv[i]] out of range *)
| Uncaught (e : exn).            (* an exception leaves [main] *)

Definition missing_key_message : string :=
  "Missing OPENAI_API_KEY. Create a .env file with OPENAI_API_KEY=... or export it in your shell.".

(** [not api_key] for what [os.getenv] returns: [None] or the empty
    string. *)
Definition not_set (api_key : option string) : bool :=
  match api_key with
  | None => true
  | Some s => String.eqb s ""
  end.

(** The module run as a script: [api_key] is what
    [os.getenv("OPENAI_API_KEY")] gives after [load_dotenv()], [argv] is
    [sys.argv]. *)
Definition script (api_key : option string) (argv : list string) (w : World)
    : list effect * termination :=
  if not_set api_key then ([], RuntimeError missing_key_message)
  else if (length argv <? 3)%nat then
    ([Print "Usage: python agent.py <input_message> <file_path>";
      Print "Example: python agent.py 'Please review this code' ./mycode.py"],
     SystemExit 1)
  else
    match argv !! 1%nat with
    | None => ([], IndexError)
    | Some user_input =>
        match argv !! 2%nat with
        | None => ([], IndexError)
        | Some file_path =>
            match main w user_input file_path with
            | (t, inl e) => (t, Uncaught e)
            | (t, inr _) => (t, Finished)
            end
        end
    end.

(** ** Views of an event sequence *)

(** One of the four kinds the loop has a branch for. *)
Definition known_kind (item : Item) : bool :=
  type_is item "tool_call_item" || type_is item "tool_call_output_item"
  || type_is item "message_output_item" || type_is item "reasoning_item".

(** The output of a tool-result event. *)
Definition result_output (item : Item) : option string :=
  if type_is item "tool_call_output_item" then output item else None.

(** The note a message event adds to the manager notes, if any. *)
Definition manager_note (item : Item) : option string :=
  if type_is item "message_output_item" then
    match message_text item with inr t => Some t | inl _ => None end
  else None.

(** The note a reasoning event adds to the planning notes. *)
Definition planning_note (item : Item) : option string :=
  if type_is item "reasoning_item" then py_str <$> raw_item item else None.

(** [e] is a [print]. *)
Definition is_print (e : effect) : bool :=
  match e with Print _ => true | _ => false end.

(** All parts of a message carry [text]. *)
Definition has_text (c : Chunk) : bool := bool_decide (is_Some (text c)).

(** [e] creates or changes a file. *)
Definition touches_file (e : effect) : bool :=
  match e with Open _ | Write _ _ => true | _ => false end.


(** ** Sample evaluations *)

Example split_keeps_empty_fields :
  PyStr.split "/" "/a//b/" = [""; "a"; ""; "b"; ""].
Proof. reflexivity. Qed.

Example splitext_py : OsPath.splitext "b_c_file.py" = ("b_c_file", ".py").
Proof. reflexivity. Qed.

Example splitext_hidden : OsPath.splitext "/x/.bashrc" = ("/x/.bashrc", "").
Proof. reflexivity. Qed.

Example splitext_dots : OsPath.splitext "a/..b.c" = ("a/..b", ".c").
Proof. reflexivity. Qed.

Example base_short_path : base "x.py" = "x_py".
Proof. reflexivity. Qed.

Example base_dotted_directories : base "../lib/x.tar.gz" = "___lib_x_tar_gz".
Proof. reflexivity. Qed.

Example review_dir_abc : review_dir "/a/b/c/file.py" = "reviews/b_c_file_py".
Proof. reflexivity. Qed.

Example review_buckets :
  buckets_after review_items = inr [["J"]; ["S"]; ["Summary"]; []].
Proof. reflexivity. Qed.

(** ** Facts about the string operations *)

Section StringFacts.

Lemma append_cons (a : ascii) (p q : string) :
  String a p +:+ q = String a (p +:+ q).
Proof. reflexivity. Qed.

Lemma append_nil (q : string) : "" +:+ q = q.
Proof. reflexivity. Qed.

Lemma append_assoc (a b c : string) : (a +:+ b) +:+ c = a +:+ b +:+ c.
Proof.
  induction a as [|x a IH]; [done |]. by rewrite !append_cons, IH.
Qed.

Lemma append_nil_r (a : string) : a +:+ "" = a.
Proof. induction a as [|x a IH]; [done |]. by rewrite append_cons, IH. Qed.

Lemma prefix_spec (p s : string) :
  String.prefix p s = true <-> exists post, s = p +:+ post.
Proof.
  revert s; induction p as [|a p IH]; intros s; simpl.
  - split; [intros _; by exists s | by destruct s].
  - destruct s as [|b s]; simpl.
    + split; [done | intros [post H]; discriminate].
    + setoid_rewrite append_cons.
      destruct (ascii_dec a b) as [->|Hne].
      * rewrite IH. split; intros [post H]; exists post; congruence.
      * split; [done | intros [post H]; congruence].
Qed.

(** [sub in s] holds exactly when [s] is some text, then [sub], then
    some text. *)
Lemma contains_spec (sub s : string) :
  PyStr.contains sub s = true <-> exists pre post, s = pre +:+ sub +:+ post.
Proof.
  induction s as [|a s IH]; cbn [PyStr.contains].
  - rewrite orb_false_r, prefix_spec. split.
    + intros [post H]. by exists "", post.
    + intros [pre [post H]]. destruct pre; [by exists post | discriminate].
  - rewrite orb_true_iff, prefix_spec, IH. split.
    + intros [[post H] | [pre [post H]]].
      * by exists "", post.
      * exists (String a pre), post. by rewrite append_cons, H.
    + intros [pre [post H]]. destruct pre as [|b pre];
        rewrite ?append_cons, ?append_nil in H.
      * left. by exists post.
      * right. exists pre, post. congruence.
Qed.

Lemma mem_replace (a b : ascii) (s : string) :
  a <> b -> PyStr.mem a (PyStr.replace a b s) = false.
Proof.
  intros Hne. induction s as [|x s IH]; simpl; [done |].
  rewrite IH, orb_false_r.
  destruct (Ascii.eqb_spec x a) as [->|Hx]; apply Ascii.eqb_neq; congruence.
Qed.

Lemma rfind_from_absent (c : ascii) (s : string) (i found : Z) :
  PyStr.mem c s = false -> PyStr.rfind_from c s i found = found.
Proof.
  revert i found; induction s as [|a s IH]; intros i found; simpl; [done |].
  intros [Ha Hs]%orb_false_iff. rewrite Ha. by apply IH.
Qed.

Lemma rfind_from_bound (c : ascii) (s : string) (i found : Z) :
  (found < i)%Z -> (found <= PyStr.rfind_from c s i found)%Z.
Proof.
  revert i found; induction s as [|a s IH]; intros i found Hlt; simpl; [lia |].
  destruct (Ascii.eqb a c).
  - etrans; [| apply IH]; lia.
  - apply IH. lia.
Qed.

(** A name without a dot has no extension to split off. *)
Lemma splitext_no_dot (p : string) :
  PyStr.mem OsPath.extsep p = false -> OsPath.splitext p = (p, "").
Proof.
  intros Hdot. unfold OsPath.splitext, PyStr.rfind.
  rewrite (rfind_from_absent _ _ _ _ Hdot).
  pose proof (rfind_from_bound OsPath.sep p 0 (-1) ltac:(lia)) as Hb.
  destruct (Z.gtb_spec (-1) (PyStr.rfind_from OsPath.sep p 0 (-1))); [lia | done].
Qed.

Lemma split_absent (c : ascii) (s : string) :
  PyStr.mem c s = false -> PyStr.split c s = [s].
Proof.
  induction s as [|a s IH]; simpl; [done |].
  intros [Ha Hs]%orb_false_iff. by rewrite Ha, IH.
Qed.

Lemma split_app_sep (c : ascii) (p rest : string) :
  PyStr.mem c p = false ->
  PyStr.split c (p +:+ String c rest) = p :: PyStr.split c rest.
Proof.
  induction p as [|a p IH]; rewrite ?append_cons, ?append_nil; simpl.
  - intros _. by rewrite Ascii.eqb_refl.
  - intros [Ha Hp]%orb_false_iff. by rewrite Ha, IH.
Qed.

(** Splitting what was joined gives the parts back. *)
Lemma split_join (c : ascii) (parts : list string) :
  parts <> [] ->
  Forall (fun p => PyStr.mem c p = false) parts ->
  PyStr.split c (PyStr.join (String c "") parts) = parts.
Proof.
  intros Hne Hall. induction Hall as [|p ps Hp Hps IH]; [done |].
  destruct ps as [|q ps].
  - by apply split_absent.
  - change (PyStr.join (String c "") (p :: q :: ps))
      with (p +:+ String c (PyStr.join (String c "") (q :: ps))).
    rewrite split_app_sep by done. by rewrite IH.
Qed.

End StringFacts.

(** ** Laws of the monad *)

Section MonadFacts.
Context {A B C : Type}.

Lemma bind_returns (m : M A) (f : A -> M B) (t : list effect) (a : A) :
  m = (t, inr a) -> m ≫= f = (t ++ trace_of (f a), outcome (f a)).
Proof. intros ->. unfold mbind, M_bind, trace_of, outcome. by destruct (f a). Qed.

Lemma bind_raises (m : M A) (f : A -> M B) (t : list effect) (e : exn) :
  m = (t, inl e) -> m ≫= f = (t, inl e).
Proof. by intros ->. Qed.

Lemma outcome_bind (m : M A) (f : A -> M B) :
  outcome (m ≫= f) =
  match outcome m with inl e => inl e | inr a => outcome (f a) end.
Proof.
  destruct m as [t [e|a]]; [done |]. by rewrite (bind_returns _ _ t a eq_refl).
Qed.

Lemma trace_bind (m : M A) (f : A -> M B) :
  trace_of (m ≫= f) =
  trace_of m ++ match outcome m with inl _ => [] | inr a => trace_of (f a) end.
Proof.
  destruct m as [t [e|a]].
  - simpl. by rewrite app_nil_r.
  - by rewrite (bind_returns _ _ t a eq_refl).
Qed.

Lemma bind_assoc (m : M A) (f : A -> M B) (g : B -> M C) :
  (m ≫= f) ≫= g = m ≫= (fun a => f a ≫= g).
Proof.
  destruct m as [t [e|a]]; [done |].
  unfold mbind, M_bind. destruct (f a) as [t1 [e1|b]]; [done |].
  destruct (g b) as [t2 r2]. by rewrite app_assoc.
Qed.

Lemma bind_ext (m : M A) (f g : A -> M B) :
  (forall a, f a = g a) -> m ≫= f = m ≫= g.
Proof.
  intros Hfg. destruct m as [t [e|a]]; [done |].
  unfold mbind, M_bind. by rewrite Hfg.
Qed.

Lemma M_eta (m : M A) : m = (trace_of m, outcome m).
Proof. by destruct m. Qed.

End MonadFacts.

(** ** The classification pass *)

Section ClassifierFacts.

(** Case analysis on the kind of an event and on the fields its branch
    reads. *)
Ltac by_kind item :=
  unfold classify_item, well_formed, invokes;
  destruct (type_is item "tool_call_item") eqn:?;
    [| destruct (type_is item "tool_call_output_item") eqn:?;
       [| destruct (type_is item "message_output_item") eqn:?;
          [| destruct (type_is item "reasoning_item") eqn:? ]]].

Ltac by_fields item :=
  unfold message_text, get_raw_item, get_output, getattr, getitem;
  destruct (raw_item item) as [[? [[?|] [?|] [?|] ?]|? ?]|];
  try destruct (output item);
  cbn; repeat (case_match; cbn in *; simplify_eq).

Lemma type_is_unique (item : Item) (s1 s2 : string) :
  type_is item s1 = true -> s1 <> s2 -> type_is item s2 = false.
Proof.
  unfold type_is. destruct (type item) as [t|]; [| done].
  intros ->%String.eqb_eq Hne. by apply String.eqb_neq.
Qed.

Lemma classify_item_completes (st : State) (item : Item) :
  (exists st', outcome (classify_item st item) = inr st') <->
  well_formed item = true.
Proof.
  by_kind item; by_fields item.
  all: try (split; [intros [? ?]; done | done]).
  all: try (split; [done | intros _; eauto]).
Qed.

Lemma classify_app (l1 l2 : list Item) (st : State) :
  classify (l1 ++ l2) st = classify l1 st ≫= classify l2.
Proof.
  revert st; induction l1 as [|item l1 IH]; intros st; simpl.
  - destruct (classify l2 st) as [t r]. done.
  - rewrite bind_assoc. apply bind_ext. intros st'. apply IH.
Qed.

Lemma outcome_classify_cons (item : Item) (rest : list Item) (st : State) :
  outcome (classify (item :: rest) st) =
  match outcome (classify_item st item) with
  | inl e => inl e
  | inr st' => outcome (classify rest st')
  end.
Proof. simpl. apply outcome_bind. Qed.

Lemma outcome_classify_app (l1 l2 : list Item) (st : State) :
  outcome (classify (l1 ++ l2) st) =
  match outcome (classify l1 st) with
  | inl e => inl e
  | inr st' => outcome (classify l2 st')
  end.
Proof. rewrite classify_app. apply outcome_bind. Qed.

(** A tool invocation binds its call id to its tool name and adds the
    name to the used tools. *)
Lemma classify_tool_call (st st' : State) (item : Item) (n c : string) :
  is_tool_call item n c ->
  outcome (classify_item st item) = inr st' ->
  st' = record_call n c st.
Proof.
  intros [Hty (s & o & Hraw & Hn & Hc)].
  unfold classify_item, get_raw_item, getattr. rewrite Hty, Hraw. cbn.
  rewrite Hn, Hc. cbn. destruct (arguments o); cbn; congruence.
Qed.

(** A tool result is filed under the name its call id resolves to; no
    field it reads is missing, so it does not raise. *)
Lemma classify_tool_result (st : State) (item : Item) (c out : string) :
  is_tool_result item c out ->
  outcome (classify_item st item) = inr (file_result (resolve st c) out st).
Proof.
  intros (Hty & Hout & s & d & Hraw & Hc).
  unfold classify_item, get_raw_item, get_output, getitem.
  rewrite (type_is_unique _ _ "tool_call_item" Hty) by done.
  rewrite Hty, Hraw, Hout. cbn. by rewrite Hc.
Qed.

Lemma file_result_id_to_tool (n out : string) (st : State) :
  id_to_tool (file_result n out st) = id_to_tool st.
Proof. unfold file_result. by repeat case_match. Qed.

Lemma file_result_used_tools (n out : string) (st : State) :
  used_tools (file_result n out st) = used_tools st.
Proof. unfold file_result. by repeat case_match. Qed.

Lemma file_result_appends (n out : string) (st : State) :
  Forall2 prefix (buckets st) (buckets (file_result n out st)).
Proof.
  unfold file_result, buckets.
  repeat case_match; cbn; repeat constructor; try done; by apply prefix_app_r.
Qed.

(** Only a tool invocation carrying [c] changes what [c] resolves to. *)
Lemma classify_item_lookup (st st' : State) (item : Item) (c : string) :
  invokes c item = false ->
  outcome (classify_item st item) = inr st' ->
  id_to_tool st' !! c = id_to_tool st !! c.
Proof.
  by_kind item; by_fields item; intros; simplify_eq; try done.
  all: try by rewrite file_result_id_to_tool.
  all: apply lookup_insert_ne;
    match goal with
    | H : bool_decide _ = false |- _ => apply bool_decide_eq_false in H
    end; congruence.
Qed.

Lemma classify_lookup (items : list Item) (st st' : State) (c : string) :
  Forall (fun i => invokes c i = false) items ->
  outcome (classify items st) = inr st' ->
  id_to_tool st' !! c = id_to_tool st !! c.
Proof.
  intros Hall; revert st; induction Hall as [|item items Hi _ IH]; intros st.
  - cbn. congruence.
  - rewrite outcome_classify_cons.
    destruct (outcome (classify_item st item)) as [e|st1] eqn:H1; [done |].
    intros H2. rewrite (IH _ H2). by eapply classify_item_lookup.
Qed.

(** Only tool invocations add to the used tools. *)
Lemma classify_item_used (st st' : State) (item : Item) :
  type_is item "tool_call_item" = false ->
  outcome (classify_item st item) = inr st' ->
  used_tools st' = used_tools st.
Proof.
  intros Hty.
  by_kind item; [done | ..]; by_fields item; intros; simplify_eq;
    by rewrite ?file_result_used_tools.
Qed.

Lemma classify_used (items : list Item) (st st' : State) :
  Forall (fun i => type_is i "tool_call_item" = false) items ->
  outcome (classify items st) = inr st' ->
  used_tools st' = used_tools st.
Proof.
  intros Hall; revert st; induction Hall as [|item items Hi _ IH]; intros st.
  - cbn. congruence.
  - rewrite outcome_classify_cons.
    destruct (outcome (classify_item st item)) as [e|st1] eqn:H1; [done |].
    intros H2. rewrite (IH _ H2). by eapply classify_item_used.
Qed.

(** Every iteration leaves each note list as it was or appends to its
    end. *)
Lemma classify_item_appends (st st' : State) (item : Item) :
  outcome (classify_item st item) = inr st' ->
  Forall2 prefix (buckets st) (buckets st').
Proof.
  by_kind item; by_fields item; intros; simplify_eq;
    try apply file_result_appends.
  all: unfold buckets; cbn; repeat constructor; try done; by apply prefix_app_r.
Qed.

Lemma buckets_prefix_trans (a b c : State) :
  Forall2 prefix (buckets a) (buckets b) ->
  Forall2 prefix (buckets b) (buckets c) ->
  Forall2 prefix (buckets a) (buckets c).
Proof.
  unfold buckets. intros Hab Hbc.
  repeat match goal with
         | H : Forall2 _ (_ :: _) (_ :: _) |- _ =>
             apply Forall2_cons_1 in H; destruct H
         end.
  repeat constructor; etrans; eauto.
Qed.

Lemma classify_appends (items : list Item) (st st' : State) :
  outcome (classify items st) = inr st' ->
  Forall2 prefix (buckets st) (buckets st').
Proof.
  revert st; induction items as [|item items IH]; intros st.
  - cbn. intros [= <-]. unfold buckets. by repeat constructor.
  - rewrite outcome_classify_cons.
    destruct (outcome (classify_item st item)) as [e|st1] eqn:H1; [done |].
    intros H2. eapply buckets_prefix_trans; [by eapply classify_item_appends | by apply IH].
Qed.

End ClassifierFacts.

(** ** The report writer *)

Section WriterFacts.
Variable w : World.

Lemma bind_ret_tt (m : M unit) : m ≫= (fun _ => mret tt) = m.
Proof. destruct m as [t [e|[]]]; cbn; [done |]. by rewrite app_nil_r. Qed.

(** The four blocks of [write_reports] are the four jobs, run in order. *)
Lemma write_reports_jobs (file_path : string) (st : State) :
  write_reports w file_path st =
  (tell (Makedirs (review_dir file_path)) ;;
   match makedirs_fails w (review_dir file_path) with
   | Some e => raise e
   | None => run_jobs w (jobs (review_dir file_path) st)
   end).
Proof.
  unfold write_reports. cbn [run_jobs jobs]. unfold run_job; cbn [job_fn job_heading job_saved job_notes].
  by rewrite bind_ret_tt.
Qed.

Lemma run_jobs_app (js1 js2 : list Job) :
  run_jobs w (js1 ++ js2) = (run_jobs w js1 ;; run_jobs w js2).
Proof.
  induction js1 as [|j js1 IH]; cbn [run_jobs app].
  - by destruct (run_jobs w js2).
  - rewrite bind_assoc. apply bind_ext. intros _. apply IH.
Qed.

Lemma run_jobs_ok (js : list Job) :
  Forall (fun j => outcome (run_job w j) = inr tt) js ->
  run_jobs w js = (flat_map (fun j => trace_of (run_job w j)) js, inr tt).
Proof.
  induction 1 as [|j js Hj _ IH]; [done |].
  cbn [run_jobs flat_map]. rewrite IH.
  by rewrite (bind_returns _ _ (trace_of (run_job w j)) tt) by (rewrite <- Hj; apply M_eta).
Qed.

(** The first job that raises ends the run of the jobs: nothing of the
    jobs after it is done. *)
Lemma run_jobs_raises (before after : list Job) (job : Job) (e : exn) :
  Forall (fun j => outcome (run_job w j) = inr tt) before ->
  outcome (run_job w job) = inl e ->
  run_jobs w (before ++ job :: after) =
  (flat_map (fun j => trace_of (run_job w j)) before ++ trace_of (run_job w job),
   inl e).
Proof.
  intros Hbefore Hjob. rewrite run_jobs_app, (run_jobs_ok _ Hbefore).
  erewrite bind_returns by done. cbn [run_jobs].
  rewrite (bind_raises _ _ (trace_of (run_job w job)) e) by (rewrite <- Hjob; apply M_eta).
  done.
Qed.

Lemma write_all_ok (fn : string) (k : nat) (data : list string) :
  outcome (write_all w fn k data) = inr tt ->
  trace_of (write_all w fn k data) = map (Write fn) data.
Proof.
  revert k; induction data as [|d data IH]; intros k; [done |].
  cbn [write_all]. unfold tell. cbn.
  destruct (write_fails w fn k); [done |].
  specialize (IH (S k)). destruct (write_all w fn (S k) data) as [t r]. cbn in *.
  intros Hr. by rewrite IH.
Qed.

Lemma write_all_paths (fn : string) (k : nat) (data : list string) (e : effect) :
  e ∈ trace_of (write_all w fn k data) -> exists d, e = Write fn d.
Proof.
  revert k; induction data as [|d data IH]; intros k; cbn [write_all].
  - cbn. by intros ?%elem_of_nil.
  - unfold tell. cbn. destruct (write_fails w fn k).
    + cbn. intros ->%list_elem_of_singleton. eauto.
    + specialize (IH (S k)). destruct (write_all w fn (S k) data) as [t r]. cbn in *.
      intros [->|?]%elem_of_cons; eauto.
Qed.

Lemma with_open_eq (fn heading : string) (notes : list string) :
  with_open w fn heading notes =
  match open_fails w fn with
  | Some e => ([Open fn], inl e)
  | None =>
      (Open fn :: trace_of (write_all w fn 0 (file_data heading notes)) ++ [Close fn],
       outcome (write_all w fn 0 (file_data heading notes)))
  end.
Proof.
  unfold with_open, tell, raise, mbind, M_bind.
  destruct (open_fails w fn); [done |].
  by destruct (write_all w fn 0 (file_data heading notes)).
Qed.

(** What one [if notes: ...] block does. *)
Lemma run_job_eq (j : Job) :
  run_job w j =
  match job_notes j with
  | [] => ([], inr tt)
  | _ :: _ =>
      match open_fails w (job_fn j) with
      | Some e => ([Open (job_fn j)], inl e)
      | None =>
          let body := write_all w (job_fn j) 0 (file_data (job_heading j) (job_notes j)) in
          match outcome body with
          | inl e => (Open (job_fn j) :: trace_of body ++ [Close (job_fn j)], inl e)
          | inr _ =>
              (Open (job_fn j) :: trace_of body
                 ++ [Close (job_fn j); Print (job_saved j)], inr tt)
          end
      end
  end.
Proof.
  unfold run_job, write_bucket. destruct (job_notes j) as [|note notes]; [done |].
  rewrite with_open_eq. destruct (open_fails w (job_fn j)); [done |].
  cbv zeta. destruct (outcome (write_all _ _ _ _)) as [e|[]]; [done |].
  unfold print, tell, mbind, M_bind.
  by rewrite <- app_comm_cons, <- app_assoc.
Qed.

(** A job opens its own file and no other, and opens it exactly when it
    has notes. *)
Lemma run_job_opens (j : Job) (fn : string) :
  Open fn ∈ trace_of (run_job w j) <-> fn = job_fn j /\ job_notes j <> [].
Proof.
  rewrite run_job_eq. destruct (job_notes j) as [|note notes] eqn:Hn.
  - cbn. split; [by intros ?%elem_of_nil | by intros [_ ?]].
  - assert (forall t, Open fn ∈ Open (job_fn j)
                :: trace_of (write_all w (job_fn j) 0
                               (file_data (job_heading j) (note :: notes))) ++ t ->
              Open fn ∈ t \/ fn = job_fn j) as Hin.
    { intros t [[= ->] | [H | H]%elem_of_app]%elem_of_cons; [by right | | by left].
      by destruct (write_all_paths _ _ _ _ H). }
    destruct (open_fails w (job_fn j)).
    + cbn. rewrite list_elem_of_singleton. split; [intros [= ->] | intros [-> _]]; done.
    + cbv zeta. split.
      * intros H. split; [| done].
        destruct (outcome _); cbn in H; apply Hin in H as [H | H]; try done.
        -- by apply list_elem_of_singleton in H.
        -- apply elem_of_cons in H as [H | H]; [done |].
           by apply list_elem_of_singleton in H.
      * intros [-> _]. destruct (outcome _); cbn; by left.
Qed.

(** The jobs of a run write to four different paths. *)
Lemma join_name (dir leaf : string) :
  PyStr.startswith (String OsPath.sep "") leaf = false ->
  exists stem, forall leaf', PyStr.startswith (String OsPath.sep "") leaf' = false ->
    OsPath.join dir leaf' = stem +:+ leaf'.
Proof.
  intros _. unfold OsPath.join.
  destruct (String.eqb dir "") eqn:Hd.
  - exists "". intros leaf' ->. done.
  - destruct (PyStr.endswith_char OsPath.sep dir).
    + exists dir. by intros leaf' ->.
    + exists (dir +:+ String OsPath.sep ""). intros leaf' ->. cbn.
      by rewrite append_assoc.
Qed.

Lemma jobs_paths_distinct (dir : string) (st : State) :
  NoDup (map job_fn (jobs dir st)).
Proof.
  destruct (join_name dir "junior_review.md" eq_refl) as [stem Hstem].
  cbn. unfold junior_fn, senior_fn, manager_fn, planner_fn.
  rewrite !Hstem by done.
  repeat (apply NoDup_cons; split);
    [ rewrite ?elem_of_cons, elem_of_nil; intros H;
      repeat destruct H as [H | H]; try done;
      by apply (inj (String.app stem)) in H .. | apply NoDup_nil_2 ].
Qed.

(** *** The files left behind *)

Lemma replay_app (t1 t2 : list effect) (fs : gmap string string) :
  replay (t1 ++ t2) fs = replay t2 (replay t1 fs).
Proof.
  revert fs; induction t1 as [|e t1 IH]; intros fs; [done |].
  destruct e; cbn; apply IH.
Qed.

Lemma replay_writes (fn : string) (data : list string) (fs : gmap string string) :
  replay (map (Write fn) data) fs !! fn
  = match data with
    | [] => fs !! fn
    | _ :: _ => Some (default "" (fs !! fn) +:+ String.concat "" data)
    end.
Proof.
  revert fs; induction data as [|d data IH]; intros fs; [done |].
  cbn [map replay]. rewrite IH, lookup_insert_eq.
  destruct data as [|d' data]; cbn [default].
  - done.
  - change (String.concat "" (d :: d' :: data))
      with (d +:+ "" +:+ String.concat "" (d' :: data)).
    unfold id. by rewrite append_assoc, append_nil.
Qed.

Lemma concat_file_data (heading : string) (notes : list string) :
  String.concat "" (file_data heading notes) = file_text heading notes.
Proof.
  unfold file_data, file_text.
  assert (forall first, String.concat "" (first :: flat_map (fun note => [note; nl +:+ nl]) notes)
          = first +:+ String.concat "" (map (fun note => note +:+ nl +:+ nl) notes)) as H.
  { induction notes as [|note notes IH]; intros first.
    - cbn. by rewrite append_nil_r.
    - cbn [flat_map map app].
      change (String.concat "" (first :: note :: (nl +:+ nl) :: ?l))
        with (first +:+ "" +:+ note +:+ "" +:+ String.concat "" ((nl +:+ nl) :: l)).
      rewrite IH, !append_nil.
      destruct notes as [|note' notes]; cbn [map String.concat].
      + by rewrite append_nil_r.
      + by rewrite !append_nil, !append_assoc. }
  by rewrite H, !append_assoc.
Qed.

(** The effects of a job touch no path but its own. *)
Lemma run_job_frame (j : Job) (fn : string) (fs : gmap string string) :
  fn <> job_fn j ->
  replay (trace_of (run_job w j)) fs !! fn = fs !! fn.
Proof.
  intros Hne.
  assert (forall t fs', (forall e, e ∈ t -> exists d, e = Write (job_fn j) d) ->
            replay t fs' !! fn = fs' !! fn) as Hwrites.
  { induction t as [|e t IH]; intros fs' Ht; [done |].
    destruct (Ht e) as [d ->]; [by left |]. cbn.
    rewrite IH by (intros e' He'; apply Ht; by right).
    by apply lookup_insert_ne. }
  rewrite run_job_eq. destruct (job_notes j) as [|note notes]; [done |].
  destruct (open_fails w (job_fn j)); [by apply lookup_insert_ne |].
  pose proof (write_all_paths (job_fn j) 0
                (file_data (job_heading j) (note :: notes))) as Hp.
  destruct (write_all w (job_fn j) 0 _) as [t r]. cbn in *.
  destruct r; cbn; rewrite replay_app; cbn;
    rewrite Hwrites by done; by apply lookup_insert_ne.
Qed.

(** A job that completes leaves its report in its file. *)
Lemma run_job_content (j : Job) (fs : gmap string string) :
  outcome (run_job w j) = inr tt ->
  job_notes j <> [] ->
  replay (trace_of (run_job w j)) fs !! job_fn j
  = Some (file_text (job_heading j) (job_notes j)).
Proof.
  rewrite run_job_eq. destruct (job_notes j) as [|note notes] eqn:Hn; [done |].
  destruct (open_fails w (job_fn j)); [done |]. cbv zeta.
  pose proof (write_all_ok (job_fn j) 0
                (file_data (job_heading j) (note :: notes))) as Hok.
  rewrite <- concat_file_data.
  destruct (write_all w (job_fn j) 0 _) as [t [e|[]]]; [done |].
  cbn [outcome trace_of fst snd] in *. intros _ _. rewrite Hok by done.
  cbn [replay]. rewrite replay_app. cbn [replay].
  rewrite replay_writes. unfold file_data at 1.
  rewrite lookup_insert_eq. cbn [default]. by rewrite append_nil.
Qed.

Lemma run_jobs_frame (js : list Job) (fn : string) (fs : gmap string string) :
  fn ∉ map job_fn js ->
  replay (flat_map (fun j => trace_of (run_job w j)) js) fs !! fn = fs !! fn.
Proof.
  revert fs; induction js as [|j js IH]; intros fs; [done |].
  cbn [map flat_map]. intros [Hj Hjs]%not_elem_of_cons.
  by rewrite replay_app, IH, run_job_frame.
Qed.

Lemma run_jobs_content (js : list Job) (j : Job) (fs : gmap string string) :
  NoDup (map job_fn js) ->
  Forall (fun j => outcome (run_job w j) = inr tt) js ->
  j ∈ js -> job_notes j <> [] ->
  replay (flat_map (fun j => trace_of (run_job w j)) js) fs !! job_fn j
  = Some (file_text (job_heading j) (job_notes j)).
Proof.
  revert fs; induction js as [|j0 js IH]; intros fs Hnd Hok Hin Hnotes.
  - by apply elem_of_nil in Hin.
  - cbn [map flat_map] in *. apply NoDup_cons in Hnd as [Hj0 Hnd].
    apply Forall_cons in Hok as [Hok0 Hok]. rewrite replay_app.
    apply elem_of_cons in Hin as [-> | Hin].
    + rewrite run_jobs_frame by done. by apply run_job_content.
    + by apply IH.
Qed.

Lemma run_jobs_opens (js : list Job) (j : Job) :
  NoDup (map job_fn js) -> j ∈ js ->
  Open (job_fn j) ∈ flat_map (fun j => trace_of (run_job w j)) js
  <-> job_notes j <> [].
Proof.
  intros Hnd Hin. rewrite list_elem_of_In, in_flat_map. split.
  - intros (j' & Hj' & Hopen). apply list_elem_of_In in Hj', Hopen.
    apply run_job_opens in Hopen as [Hfn Hnotes].
    assert (j' = j) as <-; [| done].
    clear Hnotes. induction js as [|j0 js IH]; [by apply elem_of_nil in Hin |].
    cbn in Hnd. apply NoDup_cons in Hnd as [Hj0 Hnd].
    apply elem_of_cons in Hin as [-> | Hin], Hj' as [-> | Hj']; auto.
    + exfalso. apply Hj0. rewrite Hfn. by apply list_elem_of_fmap_2.
    + exfalso. apply Hj0. rewrite <- Hfn. by apply list_elem_of_fmap_2.
  - intros Hnotes. exists j. split; apply list_elem_of_In; [done |].
    by apply run_job_opens.
Qed.

Lemma run_jobs_outcome (js : list Job) :
  outcome (run_jobs w js) = inr tt ->
  Forall (fun j => outcome (run_job w j) = inr tt) js.
Proof.
  induction js as [|j js IH]; [done |]. cbn [run_jobs].
  rewrite outcome_bind. destruct (outcome (run_job w j)) as [e|[]] eqn:Hj; [done |].
  intros H. constructor; auto.
Qed.

End WriterFacts.

(** ** The shape of a run *)

Section MainFacts.
Variable w : World.

(** The check warns; it never raises. *)
Lemma audit_returns (used : gset string) : outcome (audit used) = inr tt.
Proof. unfold audit. by case_decide. Qed.

Lemma audit_warns (used : gset string) :
  ~ required ⊆ used ->
  audit used =
  ([Print "WARNING: Manager did NOT call all required tools!";
    PrintExpected required used], inr tt).
Proof. intros Hmiss. unfold audit. by case_decide. Qed.

(** After a classification that completes, [report] runs the check,
    prints the final answer and then writes the reports; what it
    returns or raises is what the writer does. *)
Lemma report_eq (file_path : string) (result : RunResult) (st : State) :
  outcome (classify (new_items result) init) = inr st ->
  report w file_path result =
  ([Print (banner "=====Manager Agent initiated=====");
    Print (result_str result);
    Print (banner "======== Debugging ========")]
   ++ trace_of (classify (new_items result) init)
   ++ [Print (banner "======== TOOLS USED: ========");
       PrintTools (used_tools st)]
   ++ trace_of (audit (used_tools st))
   ++ [Print (banner "======== FINAL OUTPUT ========");
       Print (final_output result)]
   ++ trace_of (write_reports w file_path st),
   outcome (write_reports w file_path st)).
Proof.
  intros Hst. unfold report.
  pose proof (audit_returns (used_tools st)) as Ha.
  destruct (classify (new_items result) init) as [tc rc].
  cbn in Hst. subst rc.
  unfold print, tell, mbind, M_bind. cbn [trace_of outcome fst snd].
  destruct (audit (used_tools st)) as [ta ra]. cbn in Ha. subst ra.
  by destruct (write_reports w file_path st) as [tw rw].
Qed.

Lemma main_eq (user_input file_path content : string)
    (result : RunResult) (st : State) :
  read_file w file_path = inr content ->
  runner_run w (full_input user_input content) = inr result ->
  outcome (classify (new_items result) init) = inr st ->
  main w user_input file_path =
  ([ReadFile file_path; RunAgent (full_input user_input content)]
   ++ trace_of (report w file_path result),
   outcome (write_reports w file_path st)).
Proof.
  intros Hread Hrun Hst. unfold main. rewrite Hread. cbv zeta. rewrite Hrun.
  unfold lift, tell, mbind, M_bind. by rewrite (report_eq _ _ _ Hst).
Qed.

End MainFacts.

(** ** The review directory name *)

(** C4, as stated, fails: the dots of the directory names are replaced
    too.  The rule of the claim, read as its own example for
    [/a/b/c/file.py] fixes it, leaves the directory name [b.d] as it is;
    the source turns it into [b_d]. *)
Lemma derived_name_replaces_every_dot :
  spec_derived_name "/a/b/c/file.py" = "b_c_file_py" /\
  spec_derived_name "/a/b.d/c/file.py" = "b.d_c_file_py" /\
  base "/a/b.d/c/file.py" = "b_d_c_file_py" /\
  base "/a/b.d/c/file.py" <> spec_derived_name "/a/b.d/c/file.py".
Proof. by vm_compute. Qed.

(** C4, amended: for a path made of the components [parts] (at least one,
    none containing the separator), the review-directory name comes from
    the last three components alone (all of them when there are fewer):
    line 182 joins them by underscores and replaces every dot in them by
    an underscore, in the directory names as in the file name, and the
    name is what [os.path.splitext] on line 184 keeps of that text.  It
    holds no dot. *)
Theorem derived_name_rule (parts : list string) :
  parts <> [] ->
  Forall (fun p => PyStr.mem OsPath.sep p = false) parts ->
  base (PyStr.join "/" parts)
  = fst (OsPath.splitext
           (PyStr.replace "." "_" (PyStr.join "_" (PyStr.last_n 3 parts)))) /\
  PyStr.mem "." (base (PyStr.join "/" parts)) = false.
Proof.
  intros Hne Hparts. unfold base, path_parts.
  change (PyStr.join "/" parts) with (PyStr.join (String OsPath.sep "") parts).
  rewrite (split_join OsPath.sep parts Hne Hparts). split; [done |].
  rewrite splitext_no_dot; by apply mem_replace.
Qed.

Lemma derived_name_rule_witness :
  (base "/a/b/c/file.py" = "b_c_file_py" /\
   PyStr.mem "." (base "/a/b/c/file.py") = false) /\
  (base "b/c/file.py" = "b_c_file_py" /\
   PyStr.mem "." (base "b/c/file.py") = false) /\
  (base "/a/b.d/c/x.tar.gz" = "b_d_c_x_tar_gz" /\
   PyStr.mem "." (base "/a/b.d/c/x.tar.gz") = false).
Proof.
  split; [| split].
  - exact (derived_name_rule [""; "a"; "b"; "c"; "file.py"]
             ltac:(done) ltac:(repeat constructor)).
  - exact (derived_name_rule ["b"; "c"; "file.py"]
             ltac:(done) ltac:(repeat constructor)).
  - exact (derived_name_rule [""; "a"; "b.d"; "c"; "x.tar.gz"]
             ltac:(done) ltac:(repeat constructor)).
Defined.

(** ** Unreadable input *)

(** C7: when the input file cannot be opened or read, [main] prints the
    error and returns; it does nothing else: the runtime is not called, no
    directory is made and no file is opened or written. *)
Theorem main_unreadable_input (w : World) (user_input file_path : string)
    (err : read_error) :
  read_file w file_path = inl err ->
  main w user_input file_path =
  ([ReadFile file_path;
    Print match err with
          | FileNotFound => "Error: File not found at " +:+ file_path
          | ReadFailure msg => "Error reading file: " +:+ msg
          end],
   inr tt).
Proof. intros Hread. unfold main. rewrite Hread. by destruct err. Qed.

Lemma main_unreadable_input_witness :
  main world_missing "review" "/a/b/c/file.py" =
  ([ReadFile "/a/b/c/file.py"; Print "Error: File not found at /a/b/c/file.py"],
   inr tt).
Proof.
  exact (main_unreadable_input world_missing "review" "/a/b/c/file.py"
           FileNotFound eq_refl).
Defined.

(** ** Events with missing fields *)

(** C1, as stated, fails: a tool invocation without a tool name raises
    [AttributeError] on line 124, and the message after it is never
    classified. *)
Lemma classify_raises_on_missing_name :
  outcome (classify [nameless_call; message ["done"]] init)
  = inl (AttributeError "name").
Proof. reflexivity. Qed.

(** C1, amended: the pass completes exactly when every tool invocation
    carries a [raw_item] with [name], [call_id] and [arguments], every
    tool result a [raw_item] with the key [call_id] and an [output], and
    every message and reasoning event a [raw_item]; events of another
    kind, or of none, never raise, and neither does a message whose
    [content], or the [text] of a part, is missing. *)
Theorem classify_completes_iff (items : list Item) (st : State) :
  (exists st', outcome (classify items st) = inr st') <->
  Forall (fun item => well_formed item = true) items.
Proof.
  revert st; induction items as [|item items IH]; intros st.
  - split; [constructor | intros _; by exists st].
  - rewrite outcome_classify_cons, Forall_cons, <- (classify_item_completes st item).
    split.
    + intros [st' H]. destruct (outcome (classify_item st item)) as [e|st1]; [done |].
      split; [by exists st1 | apply (IH st1); by exists st'].
    + intros [[st1 H1] Hrest]. rewrite H1. by apply IH.
Qed.

(** A message without [content] is shown as [str(raw_item)] and leaves the
    notes as they are. *)
Lemma classify_contentless_message (st : State) :
  classify_item st contentless_message =
  ([Print "[FINAL MESSAGE FRAGMENT]"; Print "ResponseOutputMessage"; Print ""],
   inr st).
Proof. reflexivity. Qed.

(** ** Filing tool results *)

(** C10: a tool result whose resolved tool name contains both [junior]
    and [senior] goes to the junior notes only. *)
Theorem junior_before_senior (st : State) (res : Item) (c out : string) :
  is_tool_result res c out ->
  PyStr.contains "junior" (resolve st c) = true ->
  PyStr.contains "senior" (resolve st c) = true ->
  exists st', outcome (classify_item st res) = inr st' /\
    buckets st' = [junior_notes st ++ [out]; senior_notes st;
                   manager_notes st; planning_notes st].
Proof.
  intros Hres Hj _. eexists. split; [by apply classify_tool_result |].
  unfold file_result. by rewrite Hj.
Qed.

Lemma junior_before_senior_witness :
  exists st', outcome (classify_item (record_call "Junior_Senior_Agent" "c1" init)
                         (tool_result "c1" "R")) = inr st' /\
    buckets st' = [[] ++ ["R"]; []; []; []].
Proof.
  apply (junior_before_senior (record_call "Junior_Senior_Agent" "c1" init)
           (tool_result "c1" "R") "c1" "R").
  - split; [done |]. split; [done |]. by eexists _, _.
  - reflexivity.
  - reflexivity.
Defined.

(** C6: a tool result whose call id no earlier tool invocation carries
    does not raise: its tool name resolves to the empty string and its
    output is added to no note list. *)
Theorem unresolved_result_dropped (pre : list Item) (res : Item)
    (c out : string) (st : State) :
  is_tool_result res c out ->
  Forall (fun item => invokes c item = false) pre ->
  outcome (classify pre init) = inr st ->
  resolve st c = "" /\
  outcome (classify_item st res) = inr st /\
  outcome (classify (pre ++ [res]) init) = inr st.
Proof.
  intros Hres Hpre Hst.
  assert (resolve st c = "") as Hname.
  { unfold resolve. by rewrite (classify_lookup _ _ _ _ Hpre Hst). }
  assert (outcome (classify_item st res) = inr st) as Hstep.
  { rewrite (classify_tool_result _ _ _ _ Hres), Hname. done. }
  repeat split; try done.
  rewrite outcome_classify_app, Hst. cbn [classify].
  by rewrite outcome_bind, Hstep.
Qed.

Lemma unresolved_result_dropped_witness :
  resolve (add_manager "hello" init) "c9" = "" /\
  outcome (classify_item (add_manager "hello" init) (tool_result "c9" "R"))
  = inr (add_manager "hello" init) /\
  outcome (classify ([message ["hello"]] ++ [tool_result "c9" "R"]) init)
  = inr (add_manager "hello" init).
Proof.
  apply (unresolved_result_dropped [message ["hello"]] (tool_result "c9" "R")
           "c9" "R" (add_manager "hello" init)).
  - split; [done |]. split; [done |]. by eexists _, _.
  - by repeat constructor.
  - reflexivity.
Defined.

(** C5, as stated, fails twice.  A tool name that contains both [junior]
    and [senior] sends the result to the junior notes, not to the senior
    ones; and when a later invocation carries the same call id, the
    result is filed under the later tool name. *)
Lemma result_not_filed_by_first_name :
  PyStr.contains "senior" (PyStr.lower "junior_senior_agent") = true /\
  buckets_after [tool_call "junior_senior_agent" "c1" "{}";
                 tool_result "c1" "R"]
  = inr [["R"]; []; []; []] /\
  buckets_after [tool_call "senior_developer_agent" "c1" "{}";
                 tool_call "junior_developer_agent" "c1" "{}";
                 tool_result "c1" "R"]
  = inr [["R"]; []; []; []].
Proof. by vm_compute. Qed.

(** C5, amended: when a tool invocation of tool [n] with call id [c] is
    followed, with no other invocation carrying [c] in between, by a tool
    result for [c], and the pass gets that far, the result's output is
    appended to the junior notes alone if the lower-cased [n] contains
    [junior]; otherwise to the senior notes alone if it contains
    [senior]; otherwise to no note list. *)
Theorem result_filed_by_name (pre mid : list Item) (call res : Item)
    (n c out : string) (st : State) :
  is_tool_call call n c ->
  is_tool_result res c out ->
  Forall (fun item => invokes c item = false) mid ->
  outcome (classify (pre ++ call :: mid) init) = inr st ->
  exists st', outcome (classify (pre ++ call :: mid ++ [res]) init) = inr st' /\
    buckets st' =
      if PyStr.contains "junior" (PyStr.lower n)
      then [junior_notes st ++ [out]; senior_notes st; manager_notes st; planning_notes st]
      else if PyStr.contains "senior" (PyStr.lower n)
      then [junior_notes st; senior_notes st ++ [out]; manager_notes st; planning_notes st]
      else [junior_notes st; senior_notes st; manager_notes st; planning_notes st].
Proof.
  intros Hcall Hres Hmid Hst.
  assert (resolve st c = PyStr.lower n) as Hname.
  { rewrite outcome_classify_app in Hst.
    destruct (outcome (classify pre init)) as [e|st0]; [done |].
    rewrite outcome_classify_cons in Hst.
    destruct (outcome (classify_item st0 call)) as [e|st1] eqn:Hstep; [done |].
    apply (classify_tool_call _ _ _ _ _ Hcall) in Hstep. subst st1.
    unfold resolve. rewrite (classify_lookup _ _ _ _ Hmid Hst). cbn.
    by rewrite lookup_insert_eq. }
  exists (file_result (resolve st c) out st). split.
  - change (pre ++ call :: mid ++ [res]) with (pre ++ (call :: mid) ++ [res]).
    rewrite app_assoc, outcome_classify_app, Hst. cbn [classify].
    rewrite outcome_bind, (classify_tool_result _ _ _ _ Hres). done.
  - rewrite Hname. unfold file_result. by repeat case_match.
Qed.

Lemma result_filed_by_name_witness :
  exists st', outcome (classify ([message ["hi"]]
                                   ++ tool_call "Senior_Developer_Agent" "c2" "{}"
                                   :: [reasoning "plan"]
                                   ++ [tool_result "c2" "S"]) init) = inr st' /\
    buckets st' = [[]; [] ++ ["S"]; ["hi"]; ["plan"]].
Proof.
  apply (result_filed_by_name [message ["hi"]] [reasoning "plan"]
           (tool_call "Senior_Developer_Agent" "c2" "{}") (tool_result "c2" "S")
           "Senior_Developer_Agent" "c2" "S"
           (add_planning "plan"
              (record_call "Senior_Developer_Agent" "c2" (add_manager "hi" init)))).
  - split; [done |]. by eexists _, _.
  - split; [done |]. split; [done |]. by eexists _, _.
  - by repeat constructor.
  - reflexivity.
Defined.

(** ** The order of the steps *)

Lemma outcome_main (w : World) (user_input file_path content : string) :
  read_file w file_path = inr content ->
  outcome (main w user_input file_path) =
  match runner_run w (full_input user_input content) with
  | inl e => inl e
  | inr result =>
      match outcome (classify (new_items result) init) with
      | inl e => inl e
      | inr st => outcome (write_reports w file_path st)
      end
  end.
Proof.
  intros Hread. unfold main. rewrite Hread. cbv zeta.
  repeat (rewrite outcome_bind; cbn [tell lift outcome snd]).
  destruct (runner_run w _) as [e|result]; [done |].
  unfold report.
  repeat (rewrite outcome_bind; cbn [print tell outcome snd]).
  destruct (outcome (classify (new_items result) init)) as [e|st]; [done |].
  repeat (rewrite outcome_bind; cbn [print tell outcome snd]).
  rewrite audit_returns.
  by repeat (rewrite outcome_bind; cbn [print tell outcome snd]).
Qed.

(** C3, as stated, fails: the final answer is printed before the reports
    are written.  In this complete run the final answer is effect 29, the
    directory is made at 30, the junior report opened at 31, and the run
    ends with the notice of the manager report; the final answer is not
    printed again. *)
Lemma final_answer_precedes_reports :
  let run := main world_ok "review" "/a/b/c/file.py" in
  outcome run = inr tt /\
  trace_of run !! 29 = Some (Print "FINAL ANSWER") /\
  trace_of run !! 30 = Some (Makedirs "reviews/b_c_file_py") /\
  trace_of run !! 31 = Some (Open "reviews/b_c_file_py/junior_review.md") /\
  last (trace_of run)
  = Some (Print (check_mark +:+ " Manger Notes saved to: manager_review.md")) /\
  (Print "FINAL ANSWER" ∉ drop 30 (trace_of run)).
Proof.
  repeat split; try by vm_compute.
  apply (bool_decide_unpack _). by vm_compute.
Qed.

(** C3, amended: in every run that completes after reading its input,
    the event sequence goes through the classifier, then the required
    tools are checked, then the final answer is printed, and the reports
    are written last. *)
Theorem main_order (w : World) (user_input file_path content : string) :
  read_file w file_path = inr content ->
  outcome (main w user_input file_path) = inr tt ->
  exists result st,
    runner_run w (full_input user_input content) = inr result /\
    outcome (classify (new_items result) init) = inr st /\
    outcome (write_reports w file_path st) = inr tt /\
    trace_of (main w user_input file_path) =
      [ReadFile file_path; RunAgent (full_input user_input content);
       Print (banner "=====Manager Agent initiated=====");
       Print (result_str result);
       Print (banner "======== Debugging ========")]
      ++ trace_of (classify (new_items result) init)
      ++ [Print (banner "======== TOOLS USED: ========");
          PrintTools (used_tools st)]
      ++ trace_of (audit (used_tools st))
      ++ [Print (banner "======== FINAL OUTPUT ========");
          Print (final_output result)]
      ++ trace_of (write_reports w file_path st).
Proof.
  intros Hread Hok. rewrite (outcome_main _ _ _ _ Hread) in Hok.
  destruct (runner_run w _) as [e|result] eqn:Hrun; [done |].
  destruct (outcome (classify (new_items result) init)) as [e|st] eqn:Hst; [done |].
  exists result, st. repeat split; try done.
  rewrite (main_eq _ _ _ _ _ _ Hread Hrun Hst), (report_eq _ _ _ _ Hst). done.
Qed.

Lemma main_order_witness :
  exists result st,
    runner_run world_ok (full_input "review" "print(1)") = inr result /\
    outcome (classify (new_items result) init) = inr st /\
    outcome (write_reports world_ok "/a/b/c/file.py" st) = inr tt /\
    trace_of (main world_ok "review" "/a/b/c/file.py") =
      [ReadFile "/a/b/c/file.py"; RunAgent (full_input "review" "print(1)");
       Print (banner "=====Manager Agent initiated=====");
       Print (result_str result);
       Print (banner "======== Debugging ========")]
      ++ trace_of (classify (new_items result) init)
      ++ [Print (banner "======== TOOLS USED: ========");
          PrintTools (used_tools st)]
      ++ trace_of (audit (used_tools st))
      ++ [Print (banner "======== FINAL OUTPUT ========");
          Print (final_output result)]
      ++ trace_of (write_reports world_ok "/a/b/c/file.py" st).
Proof.
  apply (main_order world_ok "review" "/a/b/c/file.py" "print(1)").
  - reflexivity.
  - by vm_compute.
Defined.

(** ** Writing the reports *)

Lemma run_jobs_first_failure (w : World) (js : list Job) (e : exn) :
  outcome (run_jobs w js) = inl e ->
  exists before job after,
    js = before ++ job :: after /\
    Forall (fun j => outcome (run_job w j) = inr tt) before /\
    outcome (run_job w job) = inl e.
Proof.
  induction js as [|j js IH]; [done |]. cbn [run_jobs]. rewrite outcome_bind.
  destruct (outcome (run_job w j)) as [e'|[]] eqn:Hj.
  - intros [= ->]. by exists [], j, js.
  - intros (before & job & after & -> & Hbefore & Hjob)%IH.
    exists (j :: before), job, after. repeat split; [| done]. by constructor.
Qed.

Lemma write_reports_eq (w : World) (file_path : string) (st : State) :
  write_reports w file_path st =
  match makedirs_fails w (review_dir file_path) with
  | Some e => ([Makedirs (review_dir file_path)], inl e)
  | None =>
      (Makedirs (review_dir file_path)
         :: trace_of (run_jobs w (jobs (review_dir file_path) st)),
       outcome (run_jobs w (jobs (review_dir file_path) st)))
  end.
Proof.
  rewrite write_reports_jobs. unfold tell, raise, mbind, M_bind.
  destruct (makedirs_fails w _); [done |]. by destruct (run_jobs w _).
Qed.

(** C2, as stated, fails: when the junior report cannot be opened, the
    exception ends the run; the senior and manager notes are there, and
    their files are never opened. *)
Lemma denied_report_ends_run :
  let run := main world_denied "review" "/a/b/c/file.py" in
  buckets_after review_items = inr [["J"]; ["S"]; ["Summary"]; []] /\
  outcome run = inl (OSError "Permission denied") /\
  last (trace_of run) = Some (Open "reviews/b_c_file_py/junior_review.md") /\
  (Open "reviews/b_c_file_py/senior_review.md" ∉ trace_of run) /\
  (Open "reviews/b_c_file_py/manager_review.md" ∉ trace_of run).
Proof.
  repeat split; try by vm_compute.
  all: apply (bool_decide_unpack _); by vm_compute.
Qed.

Lemma write_all_outcome (w : World) (fn : string) (k : nat) (data : list string) :
  outcome (write_all w fn k data) =
  match first_write_failure w fn k (length data) with
  | Some e => inl e
  | None => inr tt
  end.
Proof.
  revert k; induction data as [|d data IH]; intros k; [done |].
  cbn [write_all length first_write_failure]. rewrite outcome_bind.
  cbn [tell outcome snd]. destruct (write_fails w fn k); [done | apply IH].
Qed.

(** A report is written, or raises, as the file system lets it. *)
Lemma run_job_outcome (w : World) (j : Job) :
  outcome (run_job w j) =
  match job_failure w j with Some e => inl e | None => inr tt end.
Proof.
  rewrite run_job_eq. unfold job_failure.
  destruct (job_notes j) as [|note notes]; [done |].
  destruct (open_fails w (job_fn j)); [done |]. cbv zeta.
  rewrite write_all_outcome. by destruct (first_write_failure _ _ _ _).
Qed.

(** C2, amended: a failure while writing the reports ends the writer at
    the step that fails, and the exception leaves it.  When the directory
    cannot be made, no file is opened.  When opening or writing one
    report fails, after the reports before it (in the order junior,
    senior, manager, planner) met no failure: those reports have been
    written in full, and no file of a report after it is opened, with or
    without notes. *)
Theorem write_failure_ends_run (w : World) (file_path : string) (st : State)
    (fs : gmap string string) :
  let dir := review_dir file_path in
  (forall e, makedirs_fails w dir = Some e ->
     write_reports w file_path st = ([Makedirs dir], inl e))
  /\
  (forall before job after e,
     jobs dir st = before ++ job :: after ->
     makedirs_fails w dir = None ->
     Forall (fun j => job_failure w j = None) before ->
     job_failure w job = Some e ->
     outcome (write_reports w file_path st) = inl e /\
     trace_of (write_reports w file_path st) =
       Makedirs dir :: flat_map (fun j => trace_of (run_job w j)) before
         ++ trace_of (run_job w job) /\
     Forall (fun j => job_notes j <> [] ->
                      replay (trace_of (write_reports w file_path st)) fs !! job_fn j
                      = Some (file_text (job_heading j) (job_notes j))) before /\
     Forall (fun later => Open (job_fn later) ∉ trace_of (write_reports w file_path st))
            after).
Proof.
  intros dir. split.
  { intros e Hmk. rewrite write_reports_eq. fold dir. by rewrite Hmk. }
  intros before job after e Hjobs Hmk Hbefore Hjob.
  assert (Forall (fun j => outcome (run_job w j) = inr tt) before) as Hok.
  { eapply Forall_impl; [exact Hbefore |]. intros j Hj. by rewrite run_job_outcome, Hj. }
  assert (outcome (run_job w job) = inl e) as Hraise by by rewrite run_job_outcome, Hjob.
  rewrite write_reports_eq. fold dir. rewrite Hmk, Hjobs.
  rewrite (run_jobs_raises _ _ _ _ _ Hok Hraise). cbn [trace_of outcome fst snd].
  pose proof (jobs_paths_distinct dir st) as Hnd. rewrite Hjobs in Hnd.
  rewrite map_app in Hnd. cbn [map] in Hnd.
  apply NoDup_app in Hnd as (Hnd_before & Hsep & [Hjob_fn _]%NoDup_cons).
  repeat split; try done.
  - apply Forall_forall. intros j Hj Hnotes. cbn [replay].
    rewrite replay_app, run_job_frame.
    + by apply run_jobs_content.
    + intros Heq. apply (Hsep (job_fn j)); [by apply list_elem_of_fmap_2 |].
      rewrite Heq. by left.
  - apply Forall_forall. intros later Hlater Hin.
    assert (job_fn later ∈ map job_fn after) as Hl by by apply list_elem_of_fmap_2.
    apply elem_of_cons in Hin as [? | Hin]; [done |].
    apply elem_of_app in Hin as [Hin | Hin].
    + apply list_elem_of_In, in_flat_map in Hin as (j & Hj & Hopen).
      apply list_elem_of_In in Hj, Hopen. apply run_job_opens in Hopen as [Hfn _].
      apply (Hsep (job_fn j)); [by apply list_elem_of_fmap_2 |].
      rewrite <- Hfn. by right.
    + apply run_job_opens in Hin as [Hfn _]. apply Hjob_fn. by rewrite <- Hfn.
Qed.

Lemma write_failure_ends_run_witness :
  let st := add_manager "Summary" (add_senior "S" (add_junior "J" init)) in
  let dir := review_dir "/a/b/c/file.py" in
  let junior := {| job_fn := junior_fn dir; job_heading := "# Junior Developer Review";
                   job_saved := nl +:+ check_mark
                                +:+ " Junior review saved to: junior_review.md";
                   job_notes := ["J"] |} in
  let senior := {| job_fn := senior_fn dir; job_heading := "# Senior Developer Review";
                   job_saved := check_mark +:+ " Senior review saved to: senior_review.md";
                   job_notes := ["S"] |} in
  let manager := {| job_fn := manager_fn dir; job_heading := "# Manager Notes";
                    job_saved := check_mark +:+ " Manger Notes saved to: manager_review.md";
                    job_notes := ["Summary"] |} in
  let planner := {| job_fn := planner_fn dir; job_heading := "# Planner Notes";
                    job_saved := check_mark +:+ " Planner Notes saved to: planning_steps.md";
                    job_notes := [] |} in
  write_reports world_no_directory "/a/b/c/file.py" st
  = ([Makedirs dir], inl (OSError "Permission denied"))
  /\
  (outcome (write_reports world_disk_full "/a/b/c/file.py" st)
   = inl (OSError "No space left on device") /\
   trace_of (write_reports world_disk_full "/a/b/c/file.py" st) =
     Makedirs dir :: flat_map (fun j => trace_of (run_job world_disk_full j)) [junior]
       ++ trace_of (run_job world_disk_full senior) /\
   Forall (fun j => job_notes j <> [] ->
                    replay (trace_of (write_reports world_disk_full "/a/b/c/file.py" st)) ∅
                      !! job_fn j
                    = Some (file_text (job_heading j) (job_notes j))) [junior] /\
   Forall (fun later =>
             Open (job_fn later)
             ∉ trace_of (write_reports world_disk_full "/a/b/c/file.py" st))
          [manager; planner]).
Proof.
  intros st dir junior senior manager planner. split.
  - exact (proj1 (write_failure_ends_run world_no_directory "/a/b/c/file.py" st ∅)
             (OSError "Permission denied") eq_refl).
  - exact (proj2 (write_failure_ends_run world_disk_full "/a/b/c/file.py" st ∅)
             [junior] senior [manager; planner] (OSError "No space left on device")
             eq_refl eq_refl ltac:(by repeat constructor) eq_refl).
Defined.

(** C8: in a run whose writer completes, each of the four reports is
    opened exactly when its note list is not empty, and then its file
    holds the heading and a blank line followed by every note and a blank
    line, in the order of the note list; and the note lists only grow at
    the end while the events are classified, so notes stand in the order
    of the events they come from. *)
Theorem reports_written (w : World) (file_path : string)
    (earlier later : list Item) (st1 st : State) (fs : gmap string string) :
  outcome (classify earlier init) = inr st1 ->
  outcome (classify (earlier ++ later) init) = inr st ->
  outcome (write_reports w file_path st) = inr tt ->
  Forall (fun j =>
            (Open (job_fn j) ∈ trace_of (write_reports w file_path st)
             <-> job_notes j <> []) /\
            (job_notes j <> [] ->
             replay (trace_of (write_reports w file_path st)) fs !! job_fn j
             = Some (file_text (job_heading j) (job_notes j))))
         (jobs (review_dir file_path) st)
  /\ Forall2 prefix (buckets st1) (buckets st).
Proof.
  intros Hst1 Hst Hok. split.
  - rewrite write_reports_eq in Hok |- *.
    destruct (makedirs_fails w _); [done |]. cbn [outcome snd trace_of fst] in *.
    pose proof (jobs_paths_distinct (review_dir file_path) st) as Hnd.
    pose proof (run_jobs_outcome _ _ Hok) as Hall.
    rewrite (run_jobs_ok _ _ Hall). cbn [trace_of fst].
    apply Forall_forall. intros j Hj. split.
    + rewrite elem_of_cons, (run_jobs_opens _ _ _ Hnd Hj).
      split; [by intros [? | ?] | by right].
    + intros Hnotes. cbn [replay]. by apply run_jobs_content.
  - rewrite outcome_classify_app, Hst1 in Hst. by eapply classify_appends.
Qed.

Lemma reports_written_witness :
  let st := add_manager "Summary" (add_junior "J" init) in
  Forall (fun j =>
            (Open (job_fn j) ∈ trace_of (write_reports world_ok "/a/b/c/file.py" st)
             <-> job_notes j <> []) /\
            (job_notes j <> [] ->
             replay (trace_of (write_reports world_ok "/a/b/c/file.py" st)) ∅
               !! job_fn j
             = Some (file_text (job_heading j) (job_notes j))))
         (jobs (review_dir "/a/b/c/file.py") st)
  /\ Forall2 prefix (buckets (add_junior "J" init)) (buckets st).
Proof.
  apply (reports_written world_ok "/a/b/c/file.py"
           [tool_call "junior_developer_agent" "c1" "{}"; tool_result "c1" "J"]
           [message ["Summary"]]
           (record_call "junior_developer_agent" "c1" (add_junior "J" init))
           (add_manager "Summary"
              (record_call "junior_developer_agent" "c1" (add_junior "J" init)))
           ∅).
  - reflexivity.
  - reflexivity.
  - reflexivity.
Defined.

(** ** More on the classification pass *)

Ltac kind_cases item :=
  unfold classify_item;
  destruct (type_is item "tool_call_item") eqn:?;
    [| destruct (type_is item "tool_call_output_item") eqn:?;
       [| destruct (type_is item "message_output_item") eqn:?;
          [| destruct (type_is item "reasoning_item") eqn:? ]]].

Ltac field_cases item :=
  unfold message_text, get_raw_item, get_output, getattr, getitem;
  destruct (raw_item item) as [[? [[?|] [?|] [?|] ?]|? ?]|];
  try destruct (output item);
  cbn; repeat (case_match; cbn in *; simplify_eq).

Ltac other_kinds :=
  repeat match goal with
         | H : type_is ?item ?k = true |- context [type_is ?item ?k'] =>
             rewrite (type_is_unique item k k' H) by done
         end.

Lemma classify_item_unknown (st : State) (item : Item) :
  known_kind item = false -> classify_item st item = ([], inr st).
Proof.
  unfold known_kind. intros H.
  repeat (apply orb_false_iff in H as [H ?]).
  unfold classify_item. by repeat match goal with H : _ = false |- _ => rewrite H; clear H end.
Qed.

(** Events of a kind the loop has no branch for, or of no kind, leave no
    mark: the pass over a sequence does and returns what the pass over its
    events of the four known kinds does. *)
Theorem classify_skips_unknown (items : list Item) (st : State) :
  classify items st = classify (List.filter known_kind items) st.
Proof.
  revert st; induction items as [|item items IH]; intros st; [done |].
  cbn [classify List.filter]. destruct (known_kind item) eqn:Hk.
  - cbn [classify]. apply bind_ext. intros st'. apply IH.
  - rewrite (classify_item_unknown _ _ Hk), <- IH.
    unfold mbind, M_bind. by destruct (classify items st).
Qed.

Lemma classify_item_used_iff (st st' : State) (item : Item) (n : string) :
  outcome (classify_item st item) = inr st' ->
  n ∈ used_tools st' <-> n ∈ used_tools st \/ exists c, is_tool_call item n c.
Proof.
  assert (type_is item "tool_call_item" = false ->
          (exists c, is_tool_call item n c) -> False) as Hnot.
  { intros Hty [c [Hty' _]]. congruence. }
  unfold is_tool_call in *.
  kind_cases item; field_cases item; intros; simplify_eq;
    rewrite ?file_result_used_tools; try (split; [by left | intros [? | ?]; [done | by destruct Hnot]]).
  all: unfold record_call; cbn [used_tools];
    rewrite elem_of_union, elem_of_singleton; naive_solver.
Qed.

Lemma classify_used_iff (items : list Item) (st0 st : State) (n : string) :
  outcome (classify items st0) = inr st ->
  n ∈ used_tools st <->
  n ∈ used_tools st0 \/ exists item c, item ∈ items /\ is_tool_call item n c.
Proof.
  revert st0; induction items as [|item items IH]; intros st0.
  - cbn. intros [= <-]. split; [by left | intros [? | (? & ? & []%elem_of_nil & _)]; done].
  - rewrite outcome_classify_cons.
    destruct (outcome (classify_item st0 item)) as [e|st1] eqn:Hstep; [done |].
    intros Hrest. rewrite (IH _ Hrest), (classify_item_used_iff _ _ _ n Hstep).
    setoid_rewrite elem_of_cons. naive_solver.
Qed.

(** The used tools are exactly the tool names of the tool-invocation
    events of the sequence. *)
Theorem used_tools_are_invoked (items : list Item) (st : State) (n : string) :
  outcome (classify items init) = inr st ->
  n ∈ used_tools st <-> exists item c, item ∈ items /\ is_tool_call item n c.
Proof.
  intros Hst. rewrite (classify_used_iff _ _ _ n Hst). cbn. set_solver.
Qed.

Lemma used_tools_are_invoked_witness :
  "junior_developer_agent" ∈ used_tools (record_call "junior_developer_agent" "c1" init)
  <-> exists item c,
        item ∈ [tool_call "junior_developer_agent" "c1" "{}"]
        /\ is_tool_call item "junior_developer_agent" c.
Proof.
  apply (used_tools_are_invoked [tool_call "junior_developer_agent" "c1" "{}"]
           (record_call "junior_developer_agent" "c1" init) "junior_developer_agent").
  reflexivity.
Defined.

Lemma last_invocation (c : string) (items : list Item) :
  Forall (fun item => invokes c item = false) items \/
  exists before call after,
    items = before ++ call :: after /\ invokes c call = true /\
    Forall (fun item => invokes c item = false) after.
Proof.
  induction items as [|item items [IH | (before & call & after & -> & Hc & Hafter)]].
  - by left.
  - destruct (invokes c item) eqn:Hi.
    + right. by exists [], item, items.
    + left. by constructor.
  - right. by exists (item :: before), call, after.
Qed.

Lemma invokes_is_tool_call (st st' : State) (item : Item) (c : string) :
  invokes c item = true ->
  outcome (classify_item st item) = inr st' ->
  exists n, is_tool_call item n c.
Proof.
  unfold invokes, is_tool_call. intros [Hty Hraw]%andb_true_iff.
  unfold classify_item, get_raw_item, getattr. rewrite Hty.
  destruct (raw_item item) as [[s o|s d]|]; try done.
  apply bool_decide_eq_true in Hraw. cbn.
  destruct (name o) as [n|] eqn:Hn; [| done].
  intros _. exists n. split; [done |]. by exists s, o.
Qed.

Lemma lookup_after_call (before after : list Item) (call : Item)
    (n c : string) (st0 st : State) :
  is_tool_call call n c ->
  Forall (fun item => invokes c item = false) after ->
  outcome (classify (before ++ call :: after) st0) = inr st ->
  id_to_tool st !! c = Some n.
Proof.
  intros Hcall Hafter Hst. rewrite outcome_classify_app in Hst.
  destruct (outcome (classify before st0)) as [e|st1]; [done |].
  rewrite outcome_classify_cons in Hst.
  destruct (outcome (classify_item st1 call)) as [e|st2] eqn:Hstep; [done |].
  apply (classify_tool_call _ _ _ _ _ Hcall) in Hstep. subst st2.
  rewrite (classify_lookup _ _ _ _ Hafter Hst). cbn. by rewrite lookup_insert_eq.
Qed.

(** A call id maps to the tool name of the last tool invocation that
    carried it: an invocation that reuses a call id replaces the earlier
    name. *)
Theorem call_id_maps_to_last_name (items : list Item) (st : State) (c n : string) :
  outcome (classify items init) = inr st ->
  id_to_tool st !! c = Some n <->
  exists before call after,
    items = before ++ call :: after /\ is_tool_call call n c /\
    Forall (fun item => invokes c item = false) after.
Proof.
  intros Hst. split.
  - intros Hlook.
    destruct (last_invocation c items)
      as [Hnone | (before & call & after & -> & Hc & Hafter)].
    + rewrite (classify_lookup _ _ _ _ Hnone Hst) in Hlook. done.
    + assert (exists n', is_tool_call call n' c) as [n' Hcall].
      { pose proof Hst as Hst'. rewrite outcome_classify_app in Hst'.
        destruct (outcome (classify before init)) as [e|st1]; [done |].
        rewrite outcome_classify_cons in Hst'.
        destruct (outcome (classify_item st1 call)) as [e|st2] eqn:Hstep; [done |].
        by eapply invokes_is_tool_call. }
      rewrite (lookup_after_call _ _ _ _ _ _ _ Hcall Hafter Hst) in Hlook.
      injection Hlook as <-. by exists before, call, after.
  - intros (before & call & after & -> & Hcall & Hafter).
    by eapply lookup_after_call.
Qed.

Lemma call_id_maps_to_last_name_witness :
  id_to_tool (record_call "junior_developer_agent" "c1"
                (record_call "senior_developer_agent" "c1" init)) !! "c1"
  = Some "junior_developer_agent" <->
  exists before call after,
    [tool_call "senior_developer_agent" "c1" "{}";
     tool_call "junior_developer_agent" "c1" "{}"] = before ++ call :: after /\
    is_tool_call call "junior_developer_agent" "c1" /\
    Forall (fun item => invokes "c1" item = false) after.
Proof.
  apply (call_id_maps_to_last_name
           [tool_call "senior_developer_agent" "c1" "{}";
            tool_call "junior_developer_agent" "c1" "{}"]
           (record_call "junior_developer_agent" "c1"
              (record_call "senior_developer_agent" "c1" init))
           "c1" "junior_developer_agent").
  reflexivity.
Defined.

Lemma file_result_manager (n out : string) (st : State) :
  manager_notes (file_result n out st) = manager_notes st.
Proof. unfold file_result. by repeat case_match. Qed.

Lemma file_result_planning (n out : string) (st : State) :
  planning_notes (file_result n out st) = planning_notes st.
Proof. unfold file_result. by repeat case_match. Qed.

Lemma classify_item_manager_planning (st st' : State) (item : Item) :
  outcome (classify_item st item) = inr st' ->
  manager_notes st' = manager_notes st ++ option_list (manager_note item) /\
  planning_notes st' = planning_notes st ++ option_list (planning_note item).
Proof.
  unfold manager_note, planning_note.
  kind_cases item; other_kinds; field_cases item; intros; simplify_eq;
    rewrite ?file_result_manager, ?file_result_planning; cbn;
    by rewrite ?app_nil_r.
Qed.

(** The manager notes are, in order, the texts of the message events
    whose parts all carry text, and the planning notes are, in order,
    [str(raw_item)] of the reasoning events. *)
Theorem manager_and_planning_notes (items : list Item) (st : State) :
  outcome (classify items init) = inr st ->
  manager_notes st = omap manager_note items /\
  planning_notes st = omap planning_note items.
Proof.
  assert (forall st0, outcome (classify items st0) = inr st ->
            manager_notes st = manager_notes st0 ++ omap manager_note items /\
            planning_notes st = planning_notes st0 ++ omap planning_note items) as H.
  { induction items as [|item items IH]; intros st0.
    - cbn. intros [= <-]. by rewrite !app_nil_r.
    - rewrite outcome_classify_cons.
      destruct (outcome (classify_item st0 item)) as [e|st1] eqn:Hstep; [done |].
      intros [-> ->]%IH.
      destruct (classify_item_manager_planning _ _ _ Hstep) as [-> ->].
      cbn [omap list_omap]. rewrite <- !app_assoc.
      by destruct (manager_note item), (planning_note item). }
  intros Hst. by destruct (H _ Hst) as [-> ->].
Qed.

Lemma manager_and_planning_notes_witness :
  manager_notes (add_planning "plan" (add_manager "hi" init))
  = omap manager_note [message ["hi"]; contentless_message; reasoning "plan"] /\
  planning_notes (add_planning "plan" (add_manager "hi" init))
  = omap planning_note [message ["hi"]; contentless_message; reasoning "plan"].
Proof.
  apply (manager_and_planning_notes
           [message ["hi"]; contentless_message; reasoning "plan"]
           (add_planning "plan" (add_manager "hi" init))).
  reflexivity.
Defined.

Lemma audit_silent_iff (used : gset string) :
  trace_of (audit used) = [] <->
  "junior_developer_agent" ∈ used /\ "senior_developer_agent" ∈ used.
Proof.
  unfold audit, required. case_decide as Hsub; cbn.
  - split; [intros _ | done]. split; apply Hsub; set_solver.
  - split; [done | intros [Hj Hs]]. destruct Hsub. set_solver.
Qed.

(** The check is silent exactly when the sequence has a tool invocation
    named [junior_developer_agent] and one named [senior_developer_agent],
    by their exact names; other tools besides do not matter. *)
Theorem check_silent_iff_both_invoked (items : list Item) (st : State) :
  outcome (classify items init) = inr st ->
  trace_of (audit (used_tools st)) = [] <->
  (exists item c, item ∈ items /\ is_tool_call item "junior_developer_agent" c) /\
  (exists item c, item ∈ items /\ is_tool_call item "senior_developer_agent" c).
Proof.
  intros Hst.
  rewrite audit_silent_iff, !(classify_used_iff _ _ _ _ Hst). cbn. set_solver.
Qed.

Lemma check_silent_iff_both_invoked_witness :
  let st := record_call "Junior_Developer_Agent" "c1" init in
  trace_of (audit (used_tools st)) = [] <->
  (exists item c, item ∈ [tool_call "Junior_Developer_Agent" "c1" "{}"]
                  /\ is_tool_call item "junior_developer_agent" c) /\
  (exists item c, item ∈ [tool_call "Junior_Developer_Agent" "c1" "{}"]
                  /\ is_tool_call item "senior_developer_agent" c).
Proof.
  apply (check_silent_iff_both_invoked [tool_call "Junior_Developer_Agent" "c1" "{}"]
           (record_call "Junior_Developer_Agent" "c1" init)).
  reflexivity.
Defined.

Lemma file_result_cases (n out : string) (st : State) :
  file_result n out st = st \/ file_result n out st = add_junior out st
  \/ file_result n out st = add_senior out st.
Proof. unfold file_result. repeat case_match; auto. Qed.

Lemma classify_item_review_notes (st st' : State) (item : Item) :
  outcome (classify_item st item) = inr st' ->
  (junior_notes st' = junior_notes st /\ senior_notes st' = senior_notes st) \/
  exists out, result_output item = Some out /\
    ((junior_notes st' = junior_notes st ++ [out] /\ senior_notes st' = senior_notes st) \/
     (junior_notes st' = junior_notes st /\ senior_notes st' = senior_notes st ++ [out])).
Proof.
  unfold result_output.
  kind_cases item; other_kinds; field_cases item; intros; simplify_eq; auto.
  match goal with
  | |- context [file_result ?n ?out ?st] =>
      destruct (file_result_cases n out st) as [-> | [-> | ->]]
  end; [by left | right; eexists; split; [done |]; cbn; auto ..].
Qed.

(** The junior notes and the senior notes are each a subsequence of the
    outputs of the tool-result events, and together they take each output
    at most once: no tool result is filed under both. *)
Theorem review_notes_come_from_results (items : list Item) (st : State) :
  outcome (classify items init) = inr st ->
  sublist (junior_notes st) (omap result_output items) /\
  sublist (senior_notes st) (omap result_output items) /\
  junior_notes st ++ senior_notes st ⊆+ omap result_output items.
Proof.
  assert (forall st0, outcome (classify items st0) = inr st ->
            exists js ss,
              junior_notes st = junior_notes st0 ++ js /\
              senior_notes st = senior_notes st0 ++ ss /\
              sublist js (omap result_output items) /\
              sublist ss (omap result_output items) /\
              js ++ ss ⊆+ omap result_output items) as H.
  { induction items as [|item items IH]; intros st0.
    - cbn. intros [= <-]. exists [], []. by rewrite !app_nil_r.
    - rewrite outcome_classify_cons.
      destruct (outcome (classify_item st0 item)) as [e|st1] eqn:Hstep; [done |].
      intros (js & ss & -> & -> & Hjs & Hss & Hboth)%IH.
      cbn [omap list_omap].
      destruct (classify_item_review_notes _ _ _ Hstep)
        as [[-> ->] | (out & -> & [[-> ->] | [-> ->]])].
      + exists js, ss. repeat split; try done;
          destruct (result_output item);
          try done; by (apply sublist_cons || apply submseteq_cons).
      + exists (out :: js), ss. rewrite <- app_assoc. repeat split; try done.
        * by apply sublist_skip.
        * by apply sublist_cons.
        * by apply submseteq_skip.
      + exists js, (out :: ss). rewrite <- app_assoc. repeat split; try done.
        * by apply sublist_cons.
        * by apply sublist_skip.
        * rewrite <- Permutation_middle. by apply submseteq_skip. }
  intros Hst. destruct (H _ Hst) as (js & ss & -> & -> & ?). done.
Qed.

Lemma review_notes_come_from_results_witness :
  let items := [tool_call "junior_developer_agent" "c1" "{}"; tool_result "c9" "X";
                tool_result "c1" "J"] in
  let st := add_junior "J" (record_call "junior_developer_agent" "c1" init) in
  sublist (junior_notes st) (omap result_output items) /\
  sublist (senior_notes st) (omap result_output items) /\
  junior_notes st ++ senior_notes st ⊆+ omap result_output items.
Proof.
  apply (review_notes_come_from_results
           [tool_call "junior_developer_agent" "c1" "{}"; tool_result "c9" "X";
            tool_result "c1" "J"]
           (add_junior "J" (record_call "junior_developer_agent" "c1" init))).
  reflexivity.
Defined.

Lemma chunk_texts_spec (chunks : list Chunk) :
  chunk_texts chunks =
  if forallb has_text chunks then inr (omap text chunks)
  else inl (AttributeError "text").
Proof.
  induction chunks as [|c chunks IH]; [done |].
  cbn [chunk_texts forallb omap list_omap]. unfold has_text at 1.
  destruct (text c) as [s|]; [| done]. rewrite IH. cbn.
  by destruct (forallb has_text chunks).
Qed.

(** A message is taken whole or not at all: when every part of its
    content carries text, the parts joined by newlines become one manager
    note (the empty note for a message without parts); when some part has
    none, nothing is added, not even the text of the other parts. *)
Theorem message_all_or_nothing (st : State) (item : Item) (s : string)
    (o : RawAttrs) (chunks : list Chunk) :
  type_is item "message_output_item" = true ->
  raw_item item = Some (RawObject s o) ->
  content o = Some chunks ->
  outcome (classify_item st item) =
  inr (if forallb has_text chunks
       then add_manager (PyStr.join nl (omap text chunks)) st
       else st).
Proof.
  intros Hty Hraw Hcontent. unfold classify_item.
  rewrite (type_is_unique _ _ "tool_call_item" Hty) by done.
  rewrite (type_is_unique _ _ "tool_call_output_item" Hty) by done.
  rewrite Hty. unfold message_text, get_raw_item, getattr.
  rewrite Hraw, Hcontent, chunk_texts_spec.
  by destruct (forallb has_text chunks).
Qed.

Lemma message_all_or_nothing_witness :
  outcome (classify_item init
             {| type := Some "message_output_item";
                raw_item := Some (RawObject "msg"
                  {| name := None; call_id := None; arguments := None;
                     content := Some [ {| text := Some "kept?" |};
                                       {| text := None |} ] |});
                output := None |})
  = inr init /\
  outcome (classify_item init (message [])) = inr (add_manager "" init).
Proof.
  split.
  - exact (message_all_or_nothing init
             {| type := Some "message_output_item";
                raw_item := Some (RawObject "msg"
                  {| name := None; call_id := None; arguments := None;
                     content := Some [ {| text := Some "kept?" |};
                                       {| text := None |} ] |});
                output := None |}
             "msg"
             {| name := None; call_id := None; arguments := None;
                content := Some [ {| text := Some "kept?" |}; {| text := None |} ] |}
             [ {| text := Some "kept?" |}; {| text := None |} ]
             eq_refl eq_refl eq_refl).
  - exact (message_all_or_nothing init (message []) "ResponseOutputMessage"
             {| name := None; call_id := None; arguments := None;
                content := Some [] |}
             [] eq_refl eq_refl eq_refl).
Defined.

(** ** Runs that end early *)

(** When the runtime raises, the exception leaves [main] at once: nothing
    is printed, no directory is made and no file is opened. *)
Theorem runtime_failure_propagates (w : World) (user_input file_path content : string)
    (e : exn) :
  read_file w file_path = inr content ->
  runner_run w (full_input user_input content) = inl e ->
  main w user_input file_path =
  ([ReadFile file_path; RunAgent (full_input user_input content)], inl e).
Proof. intros Hread Hrun. unfold main. rewrite Hread. cbv zeta. by rewrite Hrun. Qed.

Lemma runtime_failure_propagates_witness :
  main {| read_file := fun _ => inr "print(1)";
          runner_run := fun _ => inl (RuntimeFailure "rate limit");
          makedirs_fails := fun _ => None; open_fails := fun _ => None;
          write_fails := fun _ _ => None |} "review" "/a/b/c/file.py"
  = ([ReadFile "/a/b/c/file.py"; RunAgent (full_input "review" "print(1)")],
     inl (RuntimeFailure "rate limit")).
Proof.
  exact (runtime_failure_propagates
           {| read_file := fun _ => inr "print(1)";
              runner_run := fun _ => inl (RuntimeFailure "rate limit");
              makedirs_fails := fun _ => None; open_fails := fun _ => None;
              write_fails := fun _ _ => None |}
           "review" "/a/b/c/file.py" "print(1)" (RuntimeFailure "rate limit")
           eq_refl eq_refl).
Defined.

Lemma classify_item_prints (st : State) (item : Item) :
  Forall (fun e => is_print e = true) (trace_of (classify_item st item)).
Proof. kind_cases item; field_cases item; by repeat constructor. Qed.

Lemma classify_prints (items : list Item) (st : State) :
  Forall (fun e => is_print e = true) (trace_of (classify items st)).
Proof.
  revert st; induction items as [|item items IH]; intros st; [constructor |].
  cbn [classify]. rewrite trace_bind. apply Forall_app. split.
  - apply classify_item_prints.
  - destruct (outcome (classify_item st item)); [constructor | apply IH].
Qed.

(** When an event makes the pass raise, the exception leaves [main]: the
    run has printed the result and what the pass printed up to that
    event, and nothing else happens: the required tools are not checked,
    the final answer is not printed, no directory is made and no report
    is written. *)
Theorem classification_failure_loses_reports (w : World)
    (user_input file_path content : string) (result : RunResult) (e : exn) :
  read_file w file_path = inr content ->
  runner_run w (full_input user_input content) = inr result ->
  outcome (classify (new_items result) init) = inl e ->
  main w user_input file_path =
    ([ReadFile file_path; RunAgent (full_input user_input content);
      Print (banner "=====Manager Agent initiated=====");
      Print (result_str result);
      Print (banner "======== Debugging ========")]
     ++ trace_of (classify (new_items result) init),
     inl e)
  /\ Forall (fun e => is_print e = true) (trace_of (classify (new_items result) init)).
Proof.
  intros Hread Hrun Hfail. split; [| apply classify_prints].
  unfold main. rewrite Hread. cbv zeta. rewrite Hrun. unfold report.
  unfold print, tell, lift, mbind, M_bind.
  destruct (classify (new_items result) init) as [tc rc]. cbn in Hfail. subst rc.
  reflexivity.
Qed.

Lemma classification_failure_loses_reports_witness :
  let w := {| read_file := fun _ => inr "print(1)";
              runner_run := fun _ => inr {| new_items := [message ["hi"]; nameless_call];
                                            final_output := "FINAL ANSWER";
                                            result_str := "RunResult" |};
              makedirs_fails := fun _ => None; open_fails := fun _ => None;
              write_fails := fun _ _ => None |} in
  main w "review" "/a/b/c/file.py" =
    ([ReadFile "/a/b/c/file.py"; RunAgent (full_input "review" "print(1)");
      Print (banner "=====Manager Agent initiated=====");
      Print "RunResult";
      Print (banner "======== Debugging ========")]
     ++ trace_of (classify [message ["hi"]; nameless_call] init),
     inl (AttributeError "name"))
  /\ Forall (fun e => is_print e = true)
       (trace_of (classify [message ["hi"]; nameless_call] init)).
Proof.
  exact (classification_failure_loses_reports
           {| read_file := fun _ => inr "print(1)";
              runner_run := fun _ => inr {| new_items := [message ["hi"]; nameless_call];
                                            final_output := "FINAL ANSWER";
                                            result_str := "RunResult" |};
              makedirs_fails := fun _ => None; open_fails := fun _ => None;
              write_fails := fun _ _ => None |}
           "review" "/a/b/c/file.py" "print(1)"
           {| new_items := [message ["hi"]; nameless_call];
              final_output := "FINAL ANSWER"; result_str := "RunResult" |}
           (AttributeError "name") eq_refl eq_refl eq_refl).
Defined.

(** When the runtime returns no events, the run still warns that the
    required tools were not called, prints the final answer and makes the
    review directory, and then opens no file. *)
Theorem main_without_events (w : World) (user_input file_path content : string)
    (result : RunResult) :
  read_file w file_path = inr content ->
  runner_run w (full_input user_input content) = inr result ->
  new_items result = [] ->
  trace_of (main w user_input file_path) =
    [ReadFile file_path; RunAgent (full_input user_input content);
     Print (banner "=====Manager Agent initiated=====");
     Print (result_str result);
     Print (banner "======== Debugging ========");
     Print (banner "======== TOOLS USED: ========");
     PrintTools ∅;
     Print "WARNING: Manager did NOT call all required tools!";
     PrintExpected required ∅;
     Print (banner "======== FINAL OUTPUT ========");
     Print (final_output result);
     Makedirs (review_dir file_path)].
Proof.
  intros Hread Hrun Hnone. unfold main. rewrite Hread. cbv zeta. rewrite Hrun.
  unfold report, write_reports, write_bucket, audit, print, tell, lift, raise, mbind, M_bind.
  rewrite Hnone. cbn.
  by destruct (makedirs_fails w (review_dir file_path)).
Qed.

Lemma main_without_events_witness :
  let w := {| read_file := fun _ => inr "print(1)";
              runner_run := fun _ => inr {| new_items := []; final_output := "nothing";
                                            result_str := "RunResult" |};
              makedirs_fails := fun _ => None; open_fails := fun _ => None;
              write_fails := fun _ _ => None |} in
  trace_of (main w "review" "/a/b/c/file.py") =
    [ReadFile "/a/b/c/file.py"; RunAgent (full_input "review" "print(1)");
     Print (banner "=====Manager Agent initiated=====");
     Print "RunResult";
     Print (banner "======== Debugging ========");
     Print (banner "======== TOOLS USED: ========");
     PrintTools ∅;
     Print "WARNING: Manager did NOT call all required tools!";
     PrintExpected required ∅;
     Print (banner "======== FINAL OUTPUT ========");
     Print "nothing";
     Makedirs (review_dir "/a/b/c/file.py")].
Proof.
  exact (main_without_events
           {| read_file := fun _ => inr "print(1)";
              runner_run := fun _ => inr {| new_items := []; final_output := "nothing";
                                            result_str := "RunResult" |};
              makedirs_fails := fun _ => None; open_fails := fun _ => None;
              write_fails := fun _ _ => None |}
           "review" "/a/b/c/file.py" "print(1)"
           {| new_items := []; final_output := "nothing"; result_str := "RunResult" |}
           eq_refl eq_refl eq_refl).
Defined.

(** ** More on the report writer *)

Lemma run_jobs_frame_any (w : World) (js : list Job) (fn : string)
    (fs : gmap string string) :
  fn ∉ map job_fn js ->
  replay (trace_of (run_jobs w js)) fs !! fn = fs !! fn.
Proof.
  revert fs; induction js as [|j js IH]; intros fs; [done |].
  cbn [map run_jobs]. intros [Hj Hjs]%not_elem_of_cons.
  rewrite trace_bind, replay_app.
  destruct (outcome (run_job w j)); cbn [replay]; rewrite ?IH by done;
    by apply run_job_frame.
Qed.

Lemma run_jobs_keep (w : World) (js : list Job) (j : Job)
    (fs : gmap string string) :
  NoDup (map job_fn js) -> j ∈ js -> job_notes j = [] ->
  replay (trace_of (run_jobs w js)) fs !! job_fn j = fs !! job_fn j.
Proof.
  revert fs; induction js as [|j0 js IH]; intros fs Hnd Hin Hempty.
  - by apply elem_of_nil in Hin.
  - cbn [map] in Hnd. apply NoDup_cons in Hnd as [Hj0 Hnd].
    apply elem_of_cons in Hin as [-> | Hin].
    + cbn [run_jobs]. rewrite trace_bind, replay_app, (run_job_eq w j0), Hempty.
      cbn [trace_of outcome fst snd replay]. by apply run_jobs_frame_any.
    + cbn [run_jobs]. rewrite trace_bind, replay_app.
      assert (job_fn j <> job_fn j0) as Hne.
      { intros Heq. apply Hj0. rewrite <- Heq. by apply list_elem_of_fmap_2. }
      destruct (outcome (run_job w j0)); cbn [replay]; rewrite ?IH by done;
        by apply run_job_frame.
Qed.

(** Whatever happens while the reports are written, also when a step
    fails, no file other than the four reports is created or changed. *)
Theorem writer_touches_only_reports (w : World) (file_path : string) (st : State)
    (fs : gmap string string) (fn : string) :
  fn <> junior_fn (review_dir file_path) ->
  fn <> senior_fn (review_dir file_path) ->
  fn <> manager_fn (review_dir file_path) ->
  fn <> planner_fn (review_dir file_path) ->
  replay (trace_of (write_reports w file_path st)) fs !! fn = fs !! fn.
Proof.
  intros Hj Hs Hm Hp. rewrite write_reports_eq.
  destruct (makedirs_fails w _); [done |]. cbn [trace_of fst replay].
  apply run_jobs_frame_any. cbn.
  rewrite !not_elem_of_cons. repeat split; try done. apply not_elem_of_nil.
Qed.

Lemma writer_touches_only_reports_witness :
  replay (trace_of (write_reports world_ok "/a/b/c/file.py"
                      (add_junior "J" init)))
         {[ "reviews/b_c_file_py/notes.md" := "mine" ]}
    !! "reviews/b_c_file_py/notes.md"
  = ({[ "reviews/b_c_file_py/notes.md" := "mine" ]} : gmap string string)
      !! "reviews/b_c_file_py/notes.md".
Proof.
  by apply (writer_touches_only_reports world_ok "/a/b/c/file.py"
              (add_junior "J" init)).
Defined.

(** A note list that is empty leaves its report file as it was: a report
    of an earlier run stays in place, it is neither removed nor
    emptied. *)
Theorem empty_bucket_keeps_file (w : World) (file_path : string) (st : State)
    (fs : gmap string string) (j : Job) :
  j ∈ jobs (review_dir file_path) st ->
  job_notes j = [] ->
  replay (trace_of (write_reports w file_path st)) fs !! job_fn j = fs !! job_fn j.
Proof.
  intros Hin Hempty. rewrite write_reports_eq.
  destruct (makedirs_fails w _); [done |]. cbn [trace_of fst replay].
  apply run_jobs_keep; [apply jobs_paths_distinct | done | done].
Qed.

Lemma empty_bucket_keeps_file_witness :
  let st := add_junior "J" init in
  let old := ({[ "reviews/b_c_file_py/senior_review.md" := "old report" ]}
              : gmap string string) in
  replay (trace_of (write_reports world_ok "/a/b/c/file.py" st)) old
    !! "reviews/b_c_file_py/senior_review.md"
  = old !! "reviews/b_c_file_py/senior_review.md".
Proof.
  apply (empty_bucket_keeps_file world_ok "/a/b/c/file.py" (add_junior "J" init)
           {[ "reviews/b_c_file_py/senior_review.md" := "old report" ]}
           {| job_fn := senior_fn (review_dir "/a/b/c/file.py");
              job_heading := "# Senior Developer Review";
              job_saved := check_mark +:+ " Senior review saved to: senior_review.md";
              job_notes := [] |}).
  - right. left.
  - reflexivity.
Defined.

(** Writing the same reports again changes nothing: a report is
    truncated when it is opened, so a second run overwrites and does not
    append. *)
Theorem rewriting_reports_is_idempotent (w : World) (file_path : string)
    (st : State) (fs : gmap string string) :
  outcome (write_reports w file_path st) = inr tt ->
  replay (trace_of (write_reports w file_path st))
    (replay (trace_of (write_reports w file_path st)) fs)
  = replay (trace_of (write_reports w file_path st)) fs.
Proof.
  intros Hok. apply map_eq. intros fn.
  set (dir := review_dir file_path).
  destruct (decide (fn ∈ map job_fn (jobs dir st))) as [Hin | Hout].
  - apply list_elem_of_fmap in Hin as (j & -> & Hj).
    destruct (job_notes j) as [|note notes] eqn:Hnotes.
    + rewrite write_reports_eq. fold dir.
      destruct (makedirs_fails w dir); [done |]. cbn [trace_of fst replay].
      pose proof (jobs_paths_distinct dir st) as Hnd.
      by rewrite !(run_jobs_keep w _ j _ Hnd Hj Hnotes).
    + rewrite write_reports_eq in Hok |- *. fold dir in Hok |- *.
      destruct (makedirs_fails w dir); [done |]. cbn [outcome snd trace_of fst] in *.
      pose proof (run_jobs_outcome _ _ Hok) as Hall.
      rewrite (run_jobs_ok _ _ Hall). cbn [fst replay].
      pose proof (jobs_paths_distinct dir st) as Hnd.
      rewrite !(run_jobs_content w _ j _ Hnd Hall Hj); [done | by rewrite Hnotes ..].
  - rewrite write_reports_eq. fold dir.
    destruct (makedirs_fails w dir); [done |]. cbn [trace_of fst replay].
    by rewrite !run_jobs_frame_any.
Qed.

Lemma rewriting_reports_is_idempotent_witness :
  let t := trace_of (write_reports world_ok "/a/b/c/file.py"
                       (add_senior "S" (add_junior "J" init))) in
  replay t (replay t ∅) = replay t ∅.
Proof.
  apply (rewriting_reports_is_idempotent world_ok "/a/b/c/file.py"
           (add_senior "S" (add_junior "J" init)) ∅).
  reflexivity.
Defined.

(** For a report that has notes: its file is closed exactly when it could
    be opened, also when a write fails in between; and the notice that it
    was saved is printed exactly when all of it was written. *)
Theorem report_closed_and_announced (w : World) (j : Job) :
  job_notes j <> [] ->
  (Close (job_fn j) ∈ trace_of (run_job w j) <-> open_fails w (job_fn j) = None) /\
  (Print (job_saved j) ∈ trace_of (run_job w j) <-> outcome (run_job w j) = inr tt).
Proof.
  intros Hnotes. rewrite run_job_eq.
  destruct (job_notes j) as [|note notes]; [done |].
  destruct (open_fails w (job_fn j)) as [e|].
  { cbn. rewrite !list_elem_of_singleton. by split; split. }
  cbv zeta.
  pose proof (write_all_paths w (job_fn j) 0
                (file_data (job_heading j) (note :: notes))) as Hw.
  destruct (write_all w (job_fn j) 0 _) as [t [e|[]]];
    cbn [trace_of outcome fst snd] in *.
  - split; split.
    + done.
    + intros _. right. apply elem_of_app. right. by left.
    + intros [? | [H | H%list_elem_of_singleton]%elem_of_app]%elem_of_cons; try done.
      by destruct (Hw _ H).
    + done.
  - split; (split; [by intros _ | intros _]).
    + right. apply elem_of_app. right. by left.
    + right. apply elem_of_app. right. right. by left.
Qed.

Lemma report_closed_and_announced_witness :
  let j := {| job_fn := "reviews/x/junior_review.md";
              job_heading := "# Junior Developer Review";
              job_saved := "saved"; job_notes := ["J"] |} in
  let w := {| read_file := fun _ => inr ""; runner_run := fun _ => inr review_result;
              makedirs_fails := fun _ => None; open_fails := fun _ => None;
              write_fails := fun _ k => if (k =? 1)%nat then Some (OSError "disk full")
                                        else None |} in
  (Close (job_fn j) ∈ trace_of (run_job w j) <-> open_fails w (job_fn j) = None) /\
  (Print (job_saved j) ∈ trace_of (run_job w j) <-> outcome (run_job w j) = inr tt).
Proof.
  by apply (report_closed_and_announced
              {| read_file := fun _ => inr ""; runner_run := fun _ => inr review_result;
                 makedirs_fails := fun _ => None; open_fails := fun _ => None;
                 write_fails := fun _ k => if (k =? 1)%nat then Some (OSError "disk full")
                                           else None |}
              {| job_fn := "reviews/x/junior_review.md";
                 job_heading := "# Junior Developer Review";
                 job_saved := "saved"; job_notes := ["J"] |}).
Defined.

(** ** More on the review directory *)

Lemma split_no_sep (c : ascii) (s : string) :
  Forall (fun p => PyStr.mem c p = false) (PyStr.split c s).
Proof.
  induction s as [|a s IH]; cbn [PyStr.split].
  - by repeat constructor.
  - destruct (Ascii.eqb a c) eqn:Ha.
    + by constructor.
    + destruct (PyStr.split c s) as [|p ps]; [by repeat constructor; cbn; rewrite Ha |].
      apply Forall_cons in IH as [Hp Hps]. constructor; [| done].
      cbn. by rewrite Ha, Hp.
Qed.

Lemma mem_append (c : ascii) (a b : string) :
  PyStr.mem c (a +:+ b) = PyStr.mem c a || PyStr.mem c b.
Proof.
  induction a as [|x a IH]; [done |].
  rewrite append_cons. cbn [PyStr.mem]. by rewrite IH, orb_assoc.
Qed.

Lemma mem_join (c : ascii) (glue : string) (parts : list string) :
  PyStr.mem c glue = false ->
  Forall (fun p => PyStr.mem c p = false) parts ->
  PyStr.mem c (PyStr.join glue parts) = false.
Proof.
  intros Hglue. induction 1 as [|p ps Hp Hps IH]; [done |].
  destruct ps as [|q ps]; [done |].
  change (PyStr.join glue (p :: q :: ps))
    with (p +:+ glue +:+ PyStr.join glue (q :: ps)).
  by rewrite !mem_append, Hp, Hglue, IH.
Qed.

Lemma mem_replace_other (c a b : ascii) (s : string) :
  c <> b -> PyStr.mem c s = false -> PyStr.mem c (PyStr.replace a b s) = false.
Proof.
  intros Hcb. induction s as [|x s IH]; [done |]. cbn.
  intros [Hx Hs]%orb_false_iff. rewrite (IH Hs), orb_false_r.
  destruct (Ascii.eqb x a); [by apply Ascii.eqb_neq |done].
Qed.

Lemma base_eq (file_path : string) :
  base file_path
  = PyStr.replace "." "_" (PyStr.join "_" (PyStr.last_n 3 (path_parts file_path))).
Proof.
  unfold base. rewrite splitext_no_dot; [done |]. by apply mem_replace.
Qed.

Lemma replace_empty (a b : ascii) (s : string) :
  PyStr.replace a b s = "" -> s = "".
Proof. by destruct s. Qed.

Lemma join_empty (glue : string) (parts : list string) :
  glue <> "" -> PyStr.join glue parts = "" -> parts = [] \/ parts = [""].
Proof.
  intros Hglue. destruct parts as [|p [|q parts]];
    [by left | change (PyStr.join glue [p]) with p; intros ->; by right |].
  change (PyStr.join glue (p :: q :: parts))
    with (p +:+ glue +:+ PyStr.join glue (q :: parts)).
  destruct p; [| done]. rewrite append_nil. by destruct glue.
Qed.

Lemma split_single_empty (c : ascii) (s : string) :
  PyStr.split c s = [""] -> s = "".
Proof.
  destruct s as [|a s]; [done |]. cbn [PyStr.split].
  destruct (Ascii.eqb a c).
  - intros [= Hs]. by destruct s; cbn in Hs; repeat case_match.
  - by destruct (PyStr.split c s).
Qed.

Lemma split_nonempty (c : ascii) (s : string) : PyStr.split c s <> [].
Proof.
  destruct s as [|a s]; cbn; [done |].
  destruct (Ascii.eqb a c); [done |]. by destruct (PyStr.split c s).
Qed.

Lemma base_empty (file_path : string) : base file_path = "" <-> file_path = "".
Proof.
  split; [| by intros ->].
  rewrite base_eq. intros Hjoin%replace_empty%join_empty; [| done].
  unfold PyStr.last_n, path_parts in Hjoin.
  pose proof (split_nonempty OsPath.sep file_path) as Hne.
  assert (length (drop (length (PyStr.split OsPath.sep file_path) - 3)
                    (PyStr.split OsPath.sep file_path)) <= 1) as Hlen
    by (destruct Hjoin as [-> | ->]; cbn; lia).
  rewrite length_drop in Hlen.
  destruct (PyStr.split OsPath.sep file_path) as [|p [|q parts]] eqn:Hs;
    [done | | cbn in Hlen; lia].
  destruct Hjoin as [? | [= ->]]; [done |]. by apply split_single_empty in Hs.
Qed.

(** The derived name holds no path separator and no dot, whatever the
    input path is, and the review directory is [reviews/] followed by it.
    The name is empty for the empty path only, for which the review
    directory is [reviews/] itself; for every other path it is a
    directory directly inside [reviews]: never [..], never a path that
    leads out of [reviews]. *)
Theorem review_dir_under_reviews (file_path : string) :
  PyStr.mem "/" (base file_path) = false /\
  PyStr.mem "." (base file_path) = false /\
  review_dir file_path = "reviews/" +:+ base file_path /\
  (base file_path = "" <-> file_path = "").
Proof.
  assert (PyStr.mem "/" (base file_path) = false) as Hsep.
  { rewrite base_eq. apply mem_replace_other; [done |].
    apply mem_join; [done |]. unfold PyStr.last_n, path_parts.
    apply Forall_drop, split_no_sep. }
  split; [done |]. split.
  { rewrite base_eq. by apply mem_replace. }
  split; [| apply base_empty].
  unfold review_dir, OsPath.join, PyStr.startswith.
  destruct (base file_path) as [|x b]; [done |].
  cbn in Hsep. apply orb_false_iff in Hsep as [Hx _].
  cbn [String.prefix]. destruct (ascii_dec OsPath.sep x) as [<- | _]; [done |].
  by destruct b.
Qed.

(** Only the last three components of a path enter the derived name: two
    files with the same name in the same two innermost directories get the
    same review directory, wherever those directories are. *)
Theorem base_ignores_leading_components (leading last3 : list string) :
  length last3 = 3 ->
  Forall (fun p => PyStr.mem OsPath.sep p = false) (leading ++ last3) ->
  base (PyStr.join "/" (leading ++ last3)) = base (PyStr.join "/" last3).
Proof.
  intros Hlen Hparts. rewrite !base_eq. unfold path_parts.
  change (PyStr.join "/") with (PyStr.join (String OsPath.sep "")).
  assert (last3 <> []) as Hne by by destruct last3.
  rewrite !split_join; try done.
  - unfold PyStr.last_n. rewrite length_app, Hlen.
    replace (length leading + 3 - 3) with (length leading) by lia.
    by rewrite drop_app_length.
  - by apply Forall_app in Hparts as [_ ?].
  - by destruct leading.
Qed.

Lemma base_ignores_leading_components_witness :
  base (PyStr.join "/" (["home"; "me"] ++ ["b"; "c"; "file.py"]))
  = base (PyStr.join "/" ["b"; "c"; "file.py"]).
Proof.
  apply (base_ignores_leading_components ["home"; "me"] ["b"; "c"; "file.py"]).
  - reflexivity.
  - by repeat constructor.
Defined.

(** ** The script around [main] *)

(** Without an API key, missing or empty, the script raises
    [RuntimeError] before anything else: nothing is printed, not even the
    usage, and no file is read. *)
Theorem script_requires_key (api_key : option string) (argv : list string)
    (w : World) :
  api_key = None \/ api_key = Some "" ->
  script api_key argv w = ([], RuntimeError missing_key_message).
Proof. by intros [-> | ->]. Qed.

Lemma script_requires_key_witness :
  script (Some "") ["agent.py"] world_ok = ([], RuntimeError missing_key_message).
Proof. exact (script_requires_key (Some "") ["agent.py"] world_ok (or_intror eq_refl)). Defined.

(** With a key but fewer than two arguments after the script name, the
    script prints its two usage lines and exits with status 1; [main] is
    not run. *)
Theorem script_usage (api_key : option string) (argv : list string) (w : World) :
  not_set api_key = false ->
  length argv < 3 ->
  script api_key argv w =
  ([Print "Usage: python agent.py <input_message> <file_path>";
    Print "Example: python agent.py 'Please review this code' ./mycode.py"],
   SystemExit 1).
Proof.
  intros Hkey Hlen. unfold script. rewrite Hkey.
  by apply Nat.ltb_lt in Hlen as ->.
Qed.

Lemma script_usage_witness :
  script (Some "sk-test") ["agent.py"; "review"] world_ok =
  ([Print "Usage: python agent.py <input_message> <file_path>";
    Print "Example: python agent.py 'Please review this code' ./mycode.py"],
   SystemExit 1).
Proof.
  apply (script_usage (Some "sk-test") ["agent.py"; "review"] world_ok).
  - reflexivity.
  - cbn. lia.
Defined.

(** With a key and at least two arguments, the script does what [main]
    does on the first two; further arguments are ignored.  It ends
    normally when [main] returns, and with the exception when one leaves
    [main]. *)
Theorem script_runs_main (api_key : option string)
    (prog user_input file_path : string) (rest : list string) (w : World) :
  not_set api_key = false ->
  script api_key (prog :: user_input :: file_path :: rest) w =
  (trace_of (main w user_input file_path),
   match outcome (main w user_input file_path) with
   | inl e => Uncaught e
   | inr _ => Finished
   end).
Proof.
  intros Hkey. unfold script. rewrite Hkey. cbn -[main].
  by destruct (main w user_input file_path) as [t [e|[]]].
Qed.

Lemma script_runs_main_witness :
  script (Some "sk-test") ["agent.py"; "review"; "/a/b/c/file.py"; "extra"] world_denied =
  (trace_of (main world_denied "review" "/a/b/c/file.py"),
   match outcome (main world_denied "review" "/a/b/c/file.py") with
   | inl e => Uncaught e
   | inr _ => Finished
   end).
Proof.
  exact (script_runs_main (Some "sk-test") "agent.py" "review" "/a/b/c/file.py"
           ["extra"] world_denied eq_refl).
Defined.

(** An input file that cannot be read does not make the script fail: the
    error is printed and the script ends normally, without an exception
    and without an exit status of its own. *)
Theorem script_unreadable_input_finishes (api_key : option string)
    (prog user_input file_path : string) (rest : list string) (w : World)
    (err : read_error) :
  not_set api_key = false ->
  read_file w file_path = inl err ->
  script api_key (prog :: user_input :: file_path :: rest) w =
  ([ReadFile file_path;
    Print match err with
          | FileNotFound => "Error: File not found at " +:+ file_path
          | ReadFailure msg => "Error reading file: " +:+ msg
          end],
   Finished).
Proof.
  intros Hkey Hread. unfold script. rewrite Hkey. cbn -[main].
  unfold main. rewrite Hread. by destruct err.
Qed.

Lemma script_unreadable_input_finishes_witness :
  script (Some "sk-test") ["agent.py"; "review"; "/nowhere.py"] world_missing =
  ([ReadFile "/nowhere.py"; Print "Error: File not found at /nowhere.py"], Finished).
Proof.
  exact (script_unreadable_input_finishes (Some "sk-test") "agent.py" "review"
           "/nowhere.py" [] world_missing FileNotFound eq_refl eq_refl).
Defined.

(** ** Path components, console output and the single runtime call *)

(** Splitting a path loses nothing: there is always at least one
    component, no component holds the separator, and joining the
    components with the separator gives the path back. *)
Theorem path_parts_join (file_path : string) :
  path_parts file_path <> [] /\
  Forall (fun p => PyStr.mem OsPath.sep p = false) (path_parts file_path) /\
  PyStr.join (String OsPath.sep "") (path_parts file_path) = file_path.
Proof.
  unfold path_parts. split; [| split; [apply split_no_sep |]].
  - destruct file_path as [|a s]; cbn; [done |].
    destruct (Ascii.eqb a OsPath.sep); [done |]. by destruct (PyStr.split _ s).
  - induction file_path as [|a s IH]; [done |]. cbn [PyStr.split].
    destruct (Ascii.eqb_spec a OsPath.sep) as [-> | Hne].
    + change (PyStr.join (String OsPath.sep "") ("" :: PyStr.split OsPath.sep s))
        with (match PyStr.split OsPath.sep s with
              | [] => ""
              | _ :: _ => "" +:+ String OsPath.sep ""
                          +:+ PyStr.join (String OsPath.sep "") (PyStr.split OsPath.sep s)
              end).
      destruct (PyStr.split OsPath.sep s) as [|p ps] eqn:Hs.
      * by destruct s; cbn in Hs; repeat case_match.
      * by rewrite IH.
    + destruct (PyStr.split OsPath.sep s) as [|p ps] eqn:Hs.
      * by destruct s; cbn in Hs; repeat case_match.
      * rewrite <- IH. by destruct ps.
Qed.




(** The cut falls after the check mark, the 500th character, whose three
    bytes stay together; the 104 characters after it are not shown. *)
Example long_output_cut :
  PyStr.chars long_output = 604 /\
  PyStr.take_chars 500 long_output
  = String.concat "" (replicate 499 "a") +:+ check_mark /\
  String.length (PyStr.take_chars 500 long_output) = 502 /\
  junior_notes (file_result (resolve (record_call "junior_developer_agent" "c1" init) "c1")
                  long_output (record_call "junior_developer_agent" "c1" init))
  = [long_output].
Proof. by vm_compute. Qed.






(** ** Runs without a tool invocation *)

Lemma classify_well_formed (items : list Item) (st0 : State) :
  Forall (fun item => well_formed item = true) items ->
  exists st, outcome (classify items st0) = inr st.
Proof.
  intros Hall; revert st0; induction Hall as [|item items Hi _ IH]; intros st0.
  - by exists st0.
  - rewrite outcome_classify_cons.
    destruct (proj2 (classify_item_completes st0 item) Hi) as [st1 ->]. apply IH.
Qed.

Lemma replay_no_files (t : list effect) (fs : gmap string string) :
  Forall (fun e => touches_file e = false) t -> replay t fs = fs.
Proof. induction 1 as [|e t He _ IH]; [done |]. by destruct e. Qed.

(** C9, as stated, fails: a sequence without a tool invocation can still
    make the pass raise.  Here a tool result without [call_id] raises
    [KeyError] on line 138: the run ends there, no warning is printed and
    no directory is made. *)
Lemma no_tool_call_run_can_raise :
  let run := report world_ok "/a/b/c/file.py" keyless_result_run in
  Forall (fun item => type_is item "tool_call_item" = false)
         (new_items keyless_result_run) /\
  outcome run = inl (KeyError "call_id") /\
  last (trace_of run) = Some (Print "[TOOL RESULT]") /\
  (Print "WARNING: Manager did NOT call all required tools!" ∉ trace_of run) /\
  (Makedirs "reviews/b_c_file_py" ∉ trace_of run).
Proof.
  split; [by repeat constructor |].
  repeat split; try by vm_compute.
  all: apply (bool_decide_unpack _); by vm_compute.
Qed.

(** C9, amended: for every event sequence without a tool invocation in
    which every event carries the fields its branch reads, the pass
    completes with no used tool; the check then prints its warning and
    the expected set [junior_developer_agent], [senior_developer_agent]
    and does not raise: the final answer is printed next and the writer
    runs, starting with the review directory.  When the file system
    refuses nothing, the run completes and every non-empty note list has
    its report opened and written in full. *)
Theorem no_tool_calls_warns (w : World) (file_path : string)
    (result : RunResult) (fs : gmap string string) :
  Forall (fun item => type_is item "tool_call_item" = false) (new_items result) ->
  Forall (fun item => well_formed item = true) (new_items result) ->
  exists st after,
    outcome (classify (new_items result) init) = inr st /\
    used_tools st = ∅ /\
    trace_of (report w file_path result) =
      [Print (banner "=====Manager Agent initiated=====");
       Print (result_str result);
       Print (banner "======== Debugging ========")]
      ++ trace_of (classify (new_items result) init)
      ++ [Print (banner "======== TOOLS USED: ========");
          PrintTools ∅;
          Print "WARNING: Manager did NOT call all required tools!";
          PrintExpected {[ "junior_developer_agent"; "senior_developer_agent" ]} ∅;
          Print (banner "======== FINAL OUTPUT ========");
          Print (final_output result);
          Makedirs (review_dir file_path)]
      ++ after /\
    (makedirs_fails w (review_dir file_path) = None ->
     Forall (fun j => job_failure w j = None) (jobs (review_dir file_path) st) ->
     outcome (report w file_path result) = inr tt /\
     Forall (fun j => job_notes j <> [] ->
                      Open (job_fn j) ∈ trace_of (report w file_path result) /\
                      replay (trace_of (report w file_path result)) fs !! job_fn j
                      = Some (file_text (job_heading j) (job_notes j)))
            (jobs (review_dir file_path) st)).
Proof.
  intros Hnone Hwf.
  destruct (classify_well_formed _ init Hwf) as [st Hst].
  assert (used_tools st = ∅) as Hused by apply (classify_used _ _ _ Hnone Hst).
  set (dir := review_dir file_path).
  exists st, (match makedirs_fails w dir with
              | Some _ => []
              | None => trace_of (run_jobs w (jobs dir st))
              end).
  assert (trace_of (write_reports w file_path st) =
          Makedirs dir :: match makedirs_fails w dir with
                          | Some _ => []
                          | None => trace_of (run_jobs w (jobs dir st))
                          end) as Hwriter.
  { rewrite write_reports_eq. fold dir. by destruct (makedirs_fails w dir). }
  assert (trace_of (report w file_path result) =
          ([Print (banner "=====Manager Agent initiated=====");
            Print (result_str result);
            Print (banner "======== Debugging ========")]
           ++ trace_of (classify (new_items result) init)
           ++ [Print (banner "======== TOOLS USED: ========");
               PrintTools ∅;
               Print "WARNING: Manager did NOT call all required tools!";
               PrintExpected {[ "junior_developer_agent"; "senior_developer_agent" ]} ∅;
               Print (banner "======== FINAL OUTPUT ========");
               Print (final_output result)])
          ++ Makedirs dir :: match makedirs_fails w dir with
                             | Some _ => []
                             | None => trace_of (run_jobs w (jobs dir st))
                             end) as Htrace.
  { rewrite (report_eq w file_path result st Hst). cbn [trace_of fst].
    rewrite Hwriter, Hused, audit_warns by (unfold required; set_solver).
    cbn [trace_of fst]. by rewrite <- !app_assoc. }
  split; [done |]. split; [done |]. split.
  { rewrite Htrace. by rewrite <- !app_assoc. }
  intros Hmk Hjobs.
  assert (Forall (fun j => outcome (run_job w j) = inr tt) (jobs dir st)) as Hok.
  { eapply Forall_impl; [exact Hjobs |]. intros j Hj. by rewrite run_job_outcome, Hj. }
  split.
  { rewrite (report_eq w file_path result st Hst). cbn [outcome snd].
    rewrite write_reports_eq. fold dir. rewrite Hmk. cbn [outcome snd].
    by rewrite (run_jobs_ok _ _ Hok). }
  rewrite Htrace, Hmk, (run_jobs_ok _ _ Hok). cbn [trace_of fst].
  pose proof (jobs_paths_distinct dir st) as Hnd.
  apply Forall_forall. intros j Hj Hnotes. split.
  - apply elem_of_app. right. right. by apply run_jobs_opens.
  - match goal with
    | |- replay (?prefix ++ _) _ !! _ = _ =>
        rewrite (replay_app prefix), (replay_no_files prefix)
    end.
    + cbn [replay]. by apply run_jobs_content.
    + rewrite !Forall_app. repeat split; try by repeat constructor.
      eapply Forall_impl; [apply classify_prints |]. by intros [].
Qed.

Lemma no_tool_calls_warns_witness :
  exists st after,
    outcome (classify (new_items no_call_run) init) = inr st /\
    used_tools st = ∅ /\
    trace_of (report world_ok "/a/b/c/file.py" no_call_run) =
      [Print (banner "=====Manager Agent initiated=====");
       Print (result_str no_call_run);
       Print (banner "======== Debugging ========")]
      ++ trace_of (classify (new_items no_call_run) init)
      ++ [Print (banner "======== TOOLS USED: ========");
          PrintTools ∅;
          Print "WARNING: Manager did NOT call all required tools!";
          PrintExpected {[ "junior_developer_agent"; "senior_developer_agent" ]} ∅;
          Print (banner "======== FINAL OUTPUT ========");
          Print (final_output no_call_run);
          Makedirs (review_dir "/a/b/c/file.py")]
      ++ after /\
    (makedirs_fails world_ok (review_dir "/a/b/c/file.py") = None ->
     Forall (fun j => job_failure world_ok j = None)
            (jobs (review_dir "/a/b/c/file.py") st) ->
     outcome (report world_ok "/a/b/c/file.py" no_call_run) = inr tt /\
     Forall (fun j => job_notes j <> [] ->
                      Open (job_fn j) ∈ trace_of (report world_ok "/a/b/c/file.py" no_call_run) /\
                      replay (trace_of (report world_ok "/a/b/c/file.py" no_call_run)) ∅
                        !! job_fn j
                      = Some (file_text (job_heading j) (job_notes j)))
            (jobs (review_dir "/a/b/c/file.py") st)).
Proof.
  apply (no_tool_calls_warns world_ok "/a/b/c/file.py" no_call_run ∅);
    by repeat constructor.
Defined.
